(** * Tanrenai training sidecar

    A shallow embedding of the two Python sources of the sidecar,

    - [gpu/sidecar/train.py]: the dataset transform
      [load_dataset_from_jsonl], the progress reporter [MetricsCallback]
      and the body of [run_training];
    - [server/sidecar/main.py]: the request handlers [start_training],
      [get_status], [convert_to_gguf] and the background job [_train],

    followed by the properties of the orchestration core that are proved
    about them.

    Conventions.  Python [int] is [Z].  Python [float] is idealised as an
    exact rational [Q] (no rounding error, no overflow); values that are
    stored are kept in lowest terms so that they can be compared with [=].
    Python [str] is [string]; the case and whitespace functions act on the
    ASCII range.  A [dict] is a [gmap]; JSON objects, whose iteration order
    is observable, are association lists.  What the program cannot decide
    is an input of the model: the readings of the clock, the identifier
    [uuid4] draws, what the trainer reports and returns, whether it
    raises, and the machine [convert_to_gguf] runs on. *)

From Stdlib Require Import ZArith QArith Qabs Lia String Ascii List Sorted DecimalString.
From stdpp Require Import gmap strings list fin_maps.

Set Warnings "-register-all".
Close Scope Q_scope.
Local Open Scope Z_scope.

(** ** Python built-ins used by the sources *)

Module Py.

(** The line feed written ["\n"] in the sources. *)
Definition nl : string := String (ascii_of_nat 10) EmptyString.

(** Values stored in the metrics dictionaries. *)
Inductive pyval :=
| PInt (z : Z)
| PFloat (q : Q)
| PStr (s : string).

(** [dict.get(key, default)]. *)
Definition dict_get (d : gmap string pyval) (key : string) (dflt : pyval) : pyval :=
  default dflt (d !! key).

(** The number a value denotes, if it is one. *)
Definition num_of (v : pyval) : option Q :=
  match v with
  | PInt z => Some (inject_Z z)
  | PFloat q => Some q
  | PStr _ => None
  end.

(** [a / b] on two [int]s: true division, [None] for ZeroDivisionError. *)
Definition py_truediv (a b : Z) : option Q :=
  if b =? 0 then None else Some (Qred (inject_Z a / inject_Z b)).

(** Nearest integer, ties to the even neighbour. *)
Definition round_half_even (x : Q) : Z :=
  let d := Zpos (Qden x) in
  let f := Qnum x / d in
  match 2 * (Qnum x mod d) ?= d with
  | Lt => f
  | Gt => f + 1
  | Eq => if Z.even f then f else f + 1
  end.

Definition pow10 (ndigits : N) : positive := Z.to_pos (10 ^ Z.of_N ndigits).

(** [round(x, ndigits)] on a float. *)
Definition round_float (x : Q) (ndigits : N) : Q :=
  Qred (Qmake (round_half_even (x * inject_Z (Zpos (pow10 ndigits)))) (pow10 ndigits)).

(** [round(v, ndigits)] with [ndigits >= 0]: a float is rounded, an [int]
    is returned as it is.  (On a [str] Python raises TypeError; the
    sources only round numbers.) *)
Definition py_round (v : pyval) (ndigits : N) : pyval :=
  match v with
  | PFloat q => PFloat (round_float q ndigits)
  | _ => v
  end.

(** Decimal numeral of a non-negative integer. *)
Definition dec (z : Z) : string := NilZero.string_of_uint (N.to_uint (Z.to_N z)).

(** The format [f"{x:.1f}"]. *)
Definition fmt_1f (x : Q) : string :=
  let tenths := round_half_even (Qabs x * inject_Z 10) in
  (if Qle_bool 0 x then "" else "-")
    +:+ dec (tenths / 10) +:+ "." +:+ dec (tenths mod 10).

(** [str.lower()]. *)
Definition lower_ascii (c : ascii) : ascii :=
  let n := nat_of_ascii c in
  if ((65 <=? n) && (n <=? 90))%nat then ascii_of_nat (n + 32) else c.

Fixpoint lower (s : string) : string :=
  match s with
  | EmptyString => EmptyString
  | String c rest => String (lower_ascii c) (lower rest)
  end.

(** [str.strip()]: whitespace is removed at both ends. *)
Definition is_space (c : ascii) : bool :=
  let n := nat_of_ascii c in
  (((9 <=? n) && (n <=? 13)) || ((28 <=? n) && (n <=? 32)))%nat.

Fixpoint lstrip (s : string) : string :=
  match s with
  | String c rest => if is_space c then lstrip rest else s
  | EmptyString => EmptyString
  end.

Fixpoint rstrip (s : string) : string :=
  match s with
  | EmptyString => EmptyString
  | String c rest =>
      match rstrip rest with
      | EmptyString => if is_space c then EmptyString else String c EmptyString
      | rest' => String c rest'
      end
  end.

Definition strip (s : string) : string := rstrip (lstrip s).

(** [s[:n]]. *)
Definition prefix (n : nat) (s : string) : string := String.substring 0 n s.

(** [os.path.join(a, b)] for a relative [b]. *)
Fixpoint ends_with_slash (s : string) : bool :=
  match s with
  | EmptyString => false
  | String c EmptyString => Ascii.eqb c "/"
  | String _ rest => ends_with_slash rest
  end.

Definition path_join (a b : string) : string :=
  if (String.eqb a "" || ends_with_slash a)%bool then a +:+ b else a +:+ "/" +:+ b.

End Py.

(** ** [gpu/sidecar/train.py] *)

Module Train.
Import Py.

(** *** Dataset transform *)

(** What [json.loads] returns. *)
Inductive json :=
| JNull
| JBool (b : bool)
| JInt (z : Z)
| JFloat (q : Q)
| JStr (s : string)
| JArr (items : list json)
| JObj (fields : list (string * json)).

(** The exceptions [load_dataset_from_jsonl] can raise on the text of a
    dataset. *)
Inductive load_error :=
| JSONDecodeError
| KeyError (key : string)
| TypeError.

Definition raising (A : Type) : Type := (load_error + A)%type.

Definition bind {A B : Type} (m : raising A) (k : A -> raising B) : raising B :=
  match m with
  | inl e => inl e
  | inr a => k a
  end.

Notation "'do' x <- m ; k" := (bind m (fun x => k))
  (at level 10, x name, m at level 100, k at level 200).

(** A later duplicate of a key replaces the earlier one. *)
Fixpoint obj_lookup (fields : list (string * json)) (key : string) : option json :=
  match fields with
  | [] => None
  | (k, v) :: rest =>
      match obj_lookup rest key with
      | Some v' => Some v'
      | None => if String.eqb k key then Some v else None
      end
  end.

(** [v[key]] with a [str] key. *)
Definition getitem (v : json) (key : string) : raising json :=
  match v with
  | JObj fields =>
      match obj_lookup fields key with
      | Some x => inr x
      | None => inl (KeyError key)
      end
  | _ => inl TypeError
  end.

Fixpoint chars (s : string) : list json :=
  match s with
  | EmptyString => []
  | String c rest => JStr (String c EmptyString) :: chars rest
  end.

(** The items a [for] loop over [v] visits. *)
Definition iterate (v : json) : raising (list json) :=
  match v with
  | JArr items => inr items
  | JObj fields => inr (map (fun kv => JStr (fst kv)) fields)
  | JStr s => inr (chars s)
  | _ => inl TypeError
  end.

(** [v == s] for a string literal [s]. *)
Definition eq_str (v : json) (s : string) : bool :=
  match v with
  | JStr t => String.eqb t s
  | _ => false
  end.

Record sample := { text : string }.

Section Dataset.

(** [json.loads] on the text of one line, [None] for JSONDecodeError. *)
Variable json_loads : string -> option json.

(** [str(v)] for a [v] that is not a [str]. *)
Variable str_other : json -> string.

(** The replacement field [{content}] of an f-string. *)
Definition format_value (v : json) : string :=
  match v with
  | JStr s => s
  | _ => str_other v
  end.

(** The loop over [entry["messages"]], from the text built so far. *)
Fixpoint format_messages (msgs : list json) (text : string) : raising string :=
  match msgs with
  | [] => inr text
  | msg :: rest =>
      do role <- getitem msg "role";
      do content <- getitem msg "content";
      format_messages rest
        (if eq_str role "system" then
           text +:+ "<|system|>" +:+ nl +:+ format_value content +:+ "</s>" +:+ nl
         else if eq_str role "user" then
           text +:+ "<|user|>" +:+ nl +:+ format_value content +:+ "</s>" +:+ nl
         else if eq_str role "assistant" then
           text +:+ "<|assistant|>" +:+ nl +:+ format_value content +:+ "</s>" +:+ nl
         else text)
  end.

(** The loop over the lines of the file, from the samples collected so
    far. *)
Fixpoint load_lines (lines : list string) (samples : list sample) : raising (list sample) :=
  match lines with
  | [] => inr samples
  | line :: rest =>
      do entry <- match json_loads (strip line) with
                  | Some v => inr v
                  | None => inl JSONDecodeError
                  end;
      do messages <- getitem entry "messages";
      do msgs <- iterate messages;
      do text <- format_messages msgs "";
      load_lines rest (samples ++ [{| text := text |}])
  end.

(** [load_dataset_from_jsonl], on the lines of the file at
    [dataset_path]. *)
Definition load_dataset_from_jsonl (lines : list string) : raising (list sample) :=
  load_lines lines [].

End Dataset.

(** *** Progress reporter *)

(** The files written with [json.dump], by path. *)
Abbreviation files := (gmap string (gmap string pyval)).

Record MetricsCallback := {
  metrics_path : string;
  status_path : string;
  start_time : Q
}.

(** The fields of the trainer's state that [on_log] reads. *)
Record TrainerState := {
  global_step : Z;
  max_steps : Z
}.

(** [MetricsCallback(metrics_path, status_path)] when the clock reads
    [now]. *)
Definition new_callback (metrics_path status_path : string) (now : Q) : MetricsCallback :=
  {| metrics_path := metrics_path; status_path := status_path; start_time := now |}.

(** Line 47: [None] stands for ZeroDivisionError. *)
Definition log_progress (state : TrainerState) : option pyval :=
  if 0 <? max_steps state
  then PFloat <$> py_truediv (global_step state) (max_steps state)
  else Some (PInt 0).

(** The dictionary built on lines 48-55. *)
Definition log_metrics (self : MetricsCallback) (now : Q) (state : TrainerState)
    (logs : gmap string pyval) : option (gmap string pyval) :=
  let elapsed := (now - start_time self)%Q in
  progress ← log_progress state;
  Some (<["train_loss" := dict_get logs "loss" (PInt 0)]>
       (<["eval_loss" := dict_get logs "eval_loss" (PInt 0)]>
       (<["duration" := PStr (fmt_1f elapsed +:+ "s")]>
       (<["progress" := py_round progress 4]>
       (<["step" := PInt (global_step state)]>
       (<["max_steps" := PInt (max_steps state)]> ∅)))))).

(** [on_log], when the clock reads [now]; [None] when it raises. *)
Definition on_log (self : MetricsCallback) (now : Q) (state : TrainerState)
    (logs : option (gmap string pyval)) (fs : files) : option files :=
  match logs with
  | None => Some fs
  | Some logs =>
      metrics ← log_metrics self now state logs;
      Some (<[metrics_path self := metrics]> fs)
  end.

Definition _write_status (self : MetricsCallback) (status : string) (fs : files) : files :=
  <[status_path self := {["status" := PStr status]}]> fs.

Definition on_train_end (self : MetricsCallback) (fs : files) : files :=
  _write_status self "done" fs.

(** *** [run_training]

    The body of [run_training] is given in the pieces between which the
    collaborator acts; [Sidecar.job_step] runs them in order. *)

(** Lines 92-100: the output paths, the first status file, the clock. *)
Definition metrics_file (output_dir : string) : string := path_join output_dir "metrics.json".
Definition status_file (output_dir : string) : string := path_join output_dir "status.json".

Definition write_initial_status (output_dir : string) (fs : files) : files :=
  <[status_file output_dir := {["status" := PStr "training"]}]> fs.

(** Lines 160-166: the metrics [run_training] returns. *)
Definition final_metrics (training_loss : pyval) (elapsed : Q) (samples_used : nat)
    : gmap string pyval :=
  <["train_loss" := training_loss]>
  (<["duration" := PStr (fmt_1f elapsed +:+ "s")]>
  (<["samples_used" := PInt (Z.of_nat samples_used)]>
  (<["progress" := PFloat 1]> ∅))).

(** Lines 168-172: the two files written before returning. *)
Definition write_final (output_dir : string) (metrics : gmap string pyval) (fs : files) : files :=
  <[status_file output_dir := {["status" := PStr "done"]}]>
  (<[metrics_file output_dir := metrics]> fs).

End Train.

(** ** [server/sidecar/main.py] *)

Module Sidecar.
Import Py Train.

(** What a handler hands back: the returned body, or the [HTTPException]
    it raises. *)
Inductive response (A : Type) :=
| Return (body : A)
| HTTPException (status_code : Z) (detail : string).
Arguments Return {A} body.
Arguments HTTPException {A} status_code detail.

Module TrainRequest.
Record t := {
  dataset_path : string;
  base_model_path : string;
  output_dir : string;
  run_id : option string;
  epochs : Z;
  learning_rate : Q;
  lora_rank : Z;
  lora_alpha : Z;
  batch_size : Z
}.
End TrainRequest.

(** A value of [_runs]: the keys ["metrics"] and ["error"] are present
    or not. *)
Module RunInfo.
Record t := {
  status : string;
  metrics : option (gmap string pyval);
  error : option string
}.
End RunInfo.

(** The body [{"run_id": ..., "status": ...}]. *)
Module Started.
Record t := {
  run_id : string;
  status : string
}.
End Started.

Definition training_info : RunInfo.t :=
  {| RunInfo.status := "training"; RunInfo.metrics := Some ∅; RunInfo.error := None |}.

Definition done_info (metrics : gmap string pyval) : RunInfo.t :=
  {| RunInfo.status := "done"; RunInfo.metrics := Some metrics; RunInfo.error := None |}.

Definition failed_info (err : string) : RunInfo.t :=
  {| RunInfo.status := "failed"; RunInfo.metrics := None; RunInfo.error := Some err |}.

(** *** The process state *)

(** Where the background thread of a run stands: started; inside
    [run_training] with the first status file written; inside
    [trainer.train()], with the clock reading of line 100, the size of the
    dataset and the callback; or past the assignment to [_runs] of line 79
    or 81, before the [finally] block.  An exception of the collaborator is
    represented by its [str(e)] (the handlers name the class [Exception],
    and that is the class modelled). *)
Inductive phase :=
| Spawned
| Opened (start_time : Q)
| InTrainer (start_time : Q) (samples : nat) (callback : MetricsCallback)
| Recorded.

Record thread := {
  t_run_id : string;
  t_req : TrainRequest.t;
  t_phase : phase
}.

Record state := {
  _current_run : option string;
  _runs : gmap string RunInfo.t;
  threads : list thread;
  fs : files
}.

(** The state of a fresh process on a disk that holds [disk]. *)
Definition boot (disk : files) : state :=
  {| _current_run := None; _runs := ∅; threads := []; fs := disk |}.

Definition with_current (c : option string) (s : state) : state :=
  {| _current_run := c; _runs := _runs s; threads := threads s; fs := fs s |}.

Definition with_runs (r : gmap string RunInfo.t) (s : state) : state :=
  {| _current_run := _current_run s; _runs := r; threads := threads s; fs := fs s |}.

Definition with_threads (ts : list thread) (s : state) : state :=
  {| _current_run := _current_run s; _runs := _runs s; threads := ts; fs := fs s |}.

Definition with_fs (f : files) (s : state) : state :=
  {| _current_run := _current_run s; _runs := _runs s; threads := threads s; fs := f |}.

Definition set_phase (i : nat) (p : phase) (s : state) : state :=
  with_threads
    (alter (fun t => {| t_run_id := t_run_id t; t_req := t_req t; t_phase := p |}) i (threads s)) s.

(** *** Handlers *)

Definition health : gmap string string := {["status" := "ok"]}.

(** [a or b] on an optional [str]: [None] and the empty string are
    false. *)
Definition or_else (a : option string) (b : string) : string :=
  match a with
  | Some r => if String.eqb r "" then b else r
  | None => b
  end.

(** [start_training]; [uuid4] is the text of the identifier
    [uuid.uuid4()] draws if it is asked for one.  The critical section
    and the start of the thread are one step. *)
Definition start_training (req : TrainRequest.t) (uuid4 : string) (s : state)
    : state * response Started.t :=
  match _current_run s with
  | Some current =>
      (s, HTTPException 409 ("Training already in progress: " +:+ current))
  | None =>
      let run_id := or_else (TrainRequest.run_id req) (prefix 12 uuid4) in
      ({| _current_run := Some run_id;
          _runs := <[run_id := training_info]> (_runs s);
          threads := threads s ++ [{| t_run_id := run_id; t_req := req; t_phase := Spawned |}];
          fs := fs s |},
       Return {| Started.run_id := run_id; Started.status := "training" |})
  end.

(** A [for] loop over [xs] whose body acts on the state. *)
Definition for_each {A : Type} (xs : list A) (body : A -> state -> state) (s : state) : state :=
  foldl (fun st x => body x st) s xs.

(** [get_status]. *)
Definition get_status (run_id : string) (s : state) : state * response RunInfo.t :=
  match _runs s !! run_id with
  | None => (s, HTTPException 404 ("Run " +:+ run_id +:+ " not found"))
  | Some info =>
      let s' :=
        if String.eqb (RunInfo.status info) "training"
        then for_each (map_to_list (_runs s)).*2 (fun run_data st => st) s
        else s in
      (s', Return info)
  end.

(** *** The background job [_train] *)

(** What the thread of a run does next, as the collaborator decides. *)
Inductive job_event :=
| Enter (now : Q)
| Setup (now : Q) (samples : nat)
| Log (now : Q) (st : TrainerState) (logs : option (gmap string pyval))
| TrainEnd
| Finish (training_loss : pyval) (now : Q)
| Fail (err : string)
| Release.

(** Line 81 of [main.py]; the thread then stands before the [finally]
    block. *)
Definition record_failure (i : nat) (run_id err : string) (s : state) : state :=
  set_phase i Recorded (with_runs (<[run_id := failed_info err]> (_runs s)) s).

(** One step of thread [i].
    - [Enter]: [run_training] is entered, [train.py] 92-100.
    - [Setup]: [train.py] 102-151 succeed; the dataset has [samples]
      samples and the callback is created when the clock reads [now].
    - [Log], [TrainEnd]: the trainer calls the callback.
    - [Finish]: [trainer.train()] has returned [training_loss];
      [train.py] 156-174, then [main.py] 79.
    - [Fail]: [run_training] raises, at any point; [main.py] 81.
    - [Release]: [main.py] 82-84, and the thread ends.
    A call of [on_log] that raised would end the run like any exception
    of [run_training]. *)
Definition job_step (i : nat) (ev : job_event) (s : state) : option state :=
  t ← threads s !! i;
  let out := TrainRequest.output_dir (t_req t) in
  match ev, t_phase t with
  | Enter now, Spawned =>
      Some (set_phase i (Opened now) (with_fs (write_initial_status out (fs s)) s))
  | Setup now samples, Opened t0 =>
      Some (set_phase i
              (InTrainer t0 samples (new_callback (metrics_file out) (status_file out) now)) s)
  | Log now st logs, InTrainer _ _ callback =>
      match on_log callback now st logs (fs s) with
      | Some fs' => Some (with_fs fs' s)
      | None => Some (record_failure i (t_run_id t) "division by zero" s)
      end
  | TrainEnd, InTrainer _ _ callback =>
      Some (with_fs (on_train_end callback (fs s)) s)
  | Finish training_loss now, InTrainer t0 samples _ =>
      let metrics := final_metrics training_loss (now - t0)%Q samples in
      Some (set_phase i Recorded
              (with_runs (<[t_run_id t := done_info metrics]> (_runs s))
                 (with_fs (write_final out metrics (fs s)) s)))
  | Fail err, (Spawned | Opened _ | InTrainer _ _ _) =>
      Some (record_failure i (t_run_id t) err s)
  | Release, Recorded =>
      Some (with_threads (delete i (threads s)) (with_current None s))
  | _, _ => None
  end.

(** *** The process as a transition system *)

Inductive action :=
| Health
| StartTraining (req : TrainRequest.t) (uuid4 : string)
| GetStatus (run_id : string)
| Job (i : nat) (ev : job_event).

Inductive output :=
| HealthOut (body : gmap string string)
| StartOut (r : response Started.t)
| StatusOut (r : response RunInfo.t)
| JobOut.

Definition step (a : action) (s : state) : option (state * output) :=
  match a with
  | Health => Some (s, HealthOut health)
  | StartTraining req uuid4 =>
      let '(s', r) := start_training req uuid4 s in Some (s', StartOut r)
  | GetStatus run_id =>
      let '(s', r) := get_status run_id s in Some (s', StatusOut r)
  | Job i ev => s' ← job_step i ev s; Some (s', JobOut)
  end.

(** A run of the process: the state reached and what was answered, in
    order; [None] if some action is not possible where it is asked. *)
Fixpoint run (acts : list action) (s : state) : option (state * list output) :=
  match acts with
  | [] => Some (s, [])
  | a :: rest =>
      '(s1, o) ← step a s;
      '(s2, outs) ← run rest s1;
      Some (s2, o :: outs)
  end.

End Sidecar.

(** *** [convert_to_gguf] *)

Module Convert.
Import Py Sidecar.

Record ConvertRequest := {
  model_dir : string;
  output_path : string;
  quantization : string
}.

(** How [subprocess.run] ends: the process exits, the timeout expires,
    or the process cannot be launched.  The last two are exceptions,
    given by their [str(e)]. *)
Inductive run_result :=
| Completed (returncode : Z) (stderr : string)
| TimeoutExpired (msg : string)
| LaunchError (msg : string).

(** The machine the handler runs on.  [makedirs d] is the [str(e)]
    of the exception [os.makedirs(d, exist_ok=True)] raises, if it
    raises. *)
Record host := {
  home : string;
  path_exists : string -> bool;
  makedirs : string -> option string;
  subprocess_run : list string -> Z -> run_result
}.

(** What the handler does to the machine, in order. *)
Inductive effect :=
| Makedirs (path : string)
| Spawn (cmd : list string) (timeout : Z).

Definition is_slash (c : ascii) : bool := Ascii.eqb c "/".

Fixpoint drop_to_slash (cs : list ascii) : list ascii :=
  match cs with
  | [] => []
  | c :: rest => if is_slash c then cs else drop_to_slash rest
  end.

Fixpoint drop_slashes (cs : list ascii) : list ascii :=
  match cs with
  | [] => []
  | c :: rest => if is_slash c then drop_slashes rest else cs
  end.

(** [os.path.dirname]: the text up to the last slash, without that
    slash unless nothing else is left. *)
Definition dirname (p : string) : string :=
  let head := drop_to_slash (rev (list_ascii_of_string p)) in
  string_of_list_ascii
    (rev (if forallb is_slash head then head else drop_slashes head)).

Definition search_paths (h : host) : list string :=
  [ path_join (path_join (path_join (path_join (path_join (home h)
      ".local") "share") "tanrenai") "bin") "convert_hf_to_gguf.py";
    "/usr/local/bin/convert_hf_to_gguf.py";
    "convert_hf_to_gguf.py" ].

(** The loop of lines 148-151. *)
Fixpoint find_script (h : host) (candidates : list string) : option string :=
  match candidates with
  | [] => None
  | p :: rest => if path_exists h p then Some p else find_script h rest
  end.

Definition command (convert_script : string) (req : ConvertRequest) : list string :=
  [ "python3"; convert_script; model_dir req;
    "--outfile"; output_path req;
    "--outtype"; lower (quantization req) ].

Definition not_found_message : string :=
  "convert_hf_to_gguf.py not found. Place it in ~/.local/share/tanrenai/bin/".

(** [convert_to_gguf]: what was done to the machine, and the answer. *)
Definition convert_to_gguf (h : host) (req : ConvertRequest)
    : list effect * response (gmap string string) :=
  match find_script h (search_paths h) with
  | None => ([], HTTPException 500 not_found_message)
  | Some convert_script =>
      let dir := dirname (output_path req) in
      match makedirs h dir with
      | Some err => ([Makedirs dir], HTTPException 500 err)
      | None =>
          let cmd := command convert_script req in
          let done := [Makedirs dir; Spawn cmd 600] in
          match subprocess_run h cmd 600 with
          | Completed returncode stderr =>
              if returncode =? 0
              then (done, Return (<["status" := "ok"]>
                                 (<["output_path" := output_path req]> ∅)))
              else (done, HTTPException 500 ("Conversion failed: " +:+ stderr))
          | TimeoutExpired msg => (done, HTTPException 500 msg)
          | LaunchError msg => (done, HTTPException 500 msg)
          end
      end
  end.

End Convert.

(** *** [merge_adapter] *)

Module Merge.
Import Py Sidecar.

Record MergeRequest := {
  base_model_path : string;
  adapter_dir : string;
  output_path : string
}.

(** The statements of the [try] block that can raise, in the order of
    lines 112-128: the two imports, the calls of the collaborators and the
    creation of the output directory. *)
Inductive call :=
| ImportUnsloth
| LoadBase (model_name : string) (max_seq_length : Z) (load_in_4bit : bool)
| ImportPeft
| LoadAdapter (adapter_dir : string)
| MergeAndUnload
| MakeOutputDir (path : string)
| SaveModel (path : string)
| SaveTokenizer (path : string).

Definition script (req : MergeRequest) : list call :=
  [ ImportUnsloth;
    LoadBase (base_model_path req) 2048 true;
    ImportPeft;
    LoadAdapter (adapter_dir req);
    MergeAndUnload;
    MakeOutputDir (output_path req);
    SaveModel (output_path req);
    SaveTokenizer (output_path req) ].

(** Statements run one after the other until one raises; [raises c] is
    the [str(e)] of the exception statement [c] raises, if it raises.
    What was run, and the exception that ended it, if any. *)
Fixpoint attempt (raises : call -> option string) (calls : list call)
    : list call * option string :=
  match calls with
  | [] => ([], None)
  | c :: rest =>
      match raises c with
      | Some err => ([c], Some err)
      | None => let '(ran, r) := attempt raises rest in (c :: ran, r)
      end
  end.

(** [merge_adapter]: what was run, and the answer. *)
Definition merge_adapter (raises : call -> option string) (req : MergeRequest)
    : list call * response (gmap string string) :=
  let '(ran, r) := attempt raises (script req) in
  (ran,
   match r with
   | Some err => HTTPException 500 err
   | None => Return (<["status" := "ok"]> (<["output_path" := output_path req]> ∅))
   end).

End Merge.

(** ** Notions used in the statements *)

Module Notions.
Import Py Train Sidecar Convert.

(** *** Dataset *)

(** A role the transform writes a segment for. *)
Definition recognized (role : json) : bool :=
  eq_str role "system" || eq_str role "user" || eq_str role "assistant".

(** The segment of one message: the role tag, a line feed, the content,
    the end marker and a line feed. *)
Definition tagged_segment (str_other : json -> string) (role content : json) : string :=
  match role with
  | JStr r => "<|" +:+ r +:+ "|>" +:+ nl +:+ format_value str_other content +:+ "</s>" +:+ nl
  | _ => ""
  end.

(** The text of a sample as the segments of the recognized messages, in
    order; a message is given by its role and its content. *)
Fixpoint expected_text (str_other : json -> string) (msgs : list (json * json)) : string :=
  match msgs with
  | [] => ""
  | (role, content) :: rest =>
      (if recognized role then tagged_segment str_other role content else "")
        +:+ expected_text str_other rest
  end.

(** The role and content of a message object. *)
Definition message_fields (msg : json) : option (json * json) :=
  match msg with
  | JObj fields =>
      role ← obj_lookup fields "role";
      content ← obj_lookup fields "content";
      Some (role, content)
  | _ => None
  end.

Fixpoint all_fields (items : list json) : option (list (json * json)) :=
  match items with
  | [] => Some []
  | msg :: rest =>
      m ← message_fields msg;
      ms ← all_fields rest;
      Some (m :: ms)
  end.


(** *** Progress *)

(** One call of [on_log] by the trainer. *)
Record log_call := {
  at_time : Q;
  trainer_state : TrainerState;
  logs : option (gmap string pyval)
}.

Definition steps (calls : list log_call) : list Z :=
  map (fun c => global_step (trainer_state c)) calls.

(** The progress found in the metrics file. *)
Definition read_progress (self : MetricsCallback) (fs : files) : option Q :=
  m ← fs !! metrics_path self;
  v ← m !! "progress";
  num_of v.

(** The progress values a run records: after each call that writes the
    metrics file, the progress that the file then holds. *)
Fixpoint recorded_progress (self : MetricsCallback) (calls : list log_call) (fs : files)
    : list Q :=
  match calls with
  | [] => []
  | c :: rest =>
      match on_log self (at_time c) (trainer_state c) (logs c) fs with
      | None => []
      | Some fs' =>
          match logs c, read_progress self fs' with
          | Some _, Some p => p :: recorded_progress self rest fs'
          | _, _ => recorded_progress self rest fs'
          end
      end
  end.

(** The progress a call leaves in the metrics file, as a function of the
    trainer's state alone. *)
Definition shown_progress (st : TrainerState) : option Q :=
  v ← log_progress st; num_of (py_round v 4).

(** *** Registry *)

(** The run ids under which start-training requests were admitted. *)
Fixpoint started_ids (outs : list output) : list string :=
  match outs with
  | [] => []
  | StartOut (Return body) :: rest => Started.run_id body :: started_ids rest
  | _ :: rest => started_ids rest
  end.

Definition terminal (info : RunInfo.t) : Prop :=
  RunInfo.status info = "done" \/ RunInfo.status info = "failed".

(** A plain lookup in the registry: the stored record, or not found. *)
Definition registry_lookup (run_id : string) (s : state) : state * response RunInfo.t :=
  (s, match _runs s !! run_id with
      | Some info => Return info
      | None => HTTPException 404 ("Run " +:+ run_id +:+ " not found")
      end).

(** How a record reads once its run has ended. *)
Definition ended (info : RunInfo.t) : Prop :=
  (exists loss elapsed samples, info = done_info (final_metrics loss elapsed samples)) \/
  (exists err, info = failed_info err).

(** The slot and the thread go together: no run is active and no thread
    is left, or the active run has the only thread and a record, which
    reads ["training"] with empty metrics until the thread has recorded
    how the run ended. *)
Definition slot_inv (s : state) : Prop :=
  match _current_run s with
  | None => threads s = []
  | Some c =>
      exists t, threads s = [t] /\ t_run_id t = c /\
                is_Some (_runs s !! c) /\
                (t_phase t <> Recorded -> _runs s !! c = Some training_info)
  end.


(** What a step of a thread can be. *)
Inductive job_case (i : nat) (s : state) (t : thread) : job_event -> state -> Prop :=
| case_enter now :
    t_phase t = Spawned ->
    job_case i s t (Enter now)
      (set_phase i (Opened now)
         (with_fs (write_initial_status (TrainRequest.output_dir (t_req t)) (fs s)) s))
| case_setup now samples t0 :
    t_phase t = Opened t0 ->
    job_case i s t (Setup now samples)
      (set_phase i
         (InTrainer t0 samples
            (new_callback (metrics_file (TrainRequest.output_dir (t_req t)))
               (status_file (TrainRequest.output_dir (t_req t))) now)) s)
| case_log now st logs t0 samples callback fs' :
    t_phase t = InTrainer t0 samples callback ->
    on_log callback now st logs (fs s) = Some fs' ->
    job_case i s t (Log now st logs) (with_fs fs' s)
| case_train_end t0 samples callback :
    t_phase t = InTrainer t0 samples callback ->
    job_case i s t TrainEnd (with_fs (on_train_end callback (fs s)) s)
| case_finish training_loss now t0 samples callback :
    t_phase t = InTrainer t0 samples callback ->
    job_case i s t (Finish training_loss now)
      (set_phase i Recorded
         (with_runs
            (<[t_run_id t := done_info (final_metrics training_loss (now - t0)%Q samples)]>
               (_runs s))
            (with_fs
               (write_final (TrainRequest.output_dir (t_req t))
                  (final_metrics training_loss (now - t0)%Q samples) (fs s)) s)))
| case_fail err :
    t_phase t <> Recorded ->
    job_case i s t (Fail err) (record_failure i (t_run_id t) err s)
| case_release :
    t_phase t = Recorded ->
    job_case i s t Release (with_threads (delete i (threads s)) (with_current None s)).

(** *** Inputs of the examples *)

Definition request (run_id : option string) : TrainRequest.t :=
  {| TrainRequest.dataset_path := "/data/chat.jsonl";
     TrainRequest.base_model_path := "/models/base";
     TrainRequest.output_dir := "/out";
     TrainRequest.run_id := run_id;
     TrainRequest.epochs := 3;
     TrainRequest.learning_rate := (2 # 10000)%Q;
     TrainRequest.lora_rank := 16;
     TrainRequest.lora_alpha := 32;
     TrainRequest.batch_size := 4 |}.

Definition at_step (step max : Z) : TrainerState :=
  {| global_step := step; max_steps := max |}.

Definition loss_event (now : Q) (step max : Z) : log_call :=
  {| at_time := now; trainer_state := at_step step max;
     logs := Some {["loss" := PFloat (8 # 10)]} |}.

Definition reporter : MetricsCallback :=
  new_callback "/out/metrics.json" "/out/status.json" 0.

Definition uuid_text : string := "3f2b8c1e-9a7d-4e21-8c55-0123456789ab".

(** Start run [abc123], let the trainer report step 1 of 10. *)
Definition first_report : list action :=
  [ StartTraining (request (Some "abc123")) uuid_text;
    Job 0 (Enter 0);
    Job 0 (Setup 1 2);
    Job 0 (Log 2 (at_step 1 10) (Some {["loss" := PFloat (8 # 10)]})) ].

(** Run [a] fails and its thread ends. *)
Definition failed_run : list action :=
  [ StartTraining (request (Some "a")) uuid_text;
    Job 0 (Fail "CUDA out of memory");
    Job 0 Release ].

(** Run [a] completes and its thread ends. *)
Definition completed_run : list action :=
  [ StartTraining (request (Some "a")) uuid_text;
    Job 0 (Enter 0);
    Job 0 (Setup 1 2);
    Job 0 (Finish (PFloat (42 # 100)) 61);
    Job 0 Release ].

(** Where a run of the fresh process on an empty disk leads, and what
    it answers. *)
Definition state_after (acts : list action) : state :=
  match run acts (boot ∅) with
  | Some (s, _) => s
  | None => boot ∅
  end.

Definition answers (acts : list action) : list output :=
  match run acts (boot ∅) with
  | Some (_, outs) => outs
  | None => []
  end.

(** A line that holds a system, a tool and a user message. *)
Definition chat_entry : json :=
  JObj [("messages",
         JArr [ JObj [("role", JStr "system"); ("content", JStr "Be brief.")];
                JObj [("role", JStr "tool"); ("content", JStr "42")];
                JObj [("role", JStr "user"); ("content", JStr "Hi")] ])].


Definition plain_str (v : json) : string := "None".



(** *** Files and threads *)

Definition out_dir (t : thread) : string := TrainRequest.output_dir (t_req t).

Definition reads_training : gmap string pyval := {["status" := PStr "training"]}.
Definition reads_done : gmap string pyval := {["status" := PStr "done"]}.

(** What the files of a thread's output directory hold while the thread
    is inside [run_training]: the status file reads ["training"], or
    ["done"] once the trainer has signalled the end of training, and the
    callback holds the two paths of that directory. *)
Definition files_inv (s : state) : Prop :=
  forall t, In t (threads s) ->
    match t_phase t with
    | Spawned | Recorded => True
    | Opened _ => fs s !! status_file (out_dir t) = Some reads_training
    | InTrainer _ _ callback =>
        metrics_path callback = metrics_file (out_dir t) /\
        status_path callback = status_file (out_dir t) /\
        (fs s !! status_file (out_dir t) = Some reads_training \/
         fs s !! status_file (out_dir t) = Some reads_done)
    end.

(** A thread that stands before the [finally] block has recorded how its
    run ended. *)
Definition settled_inv (s : state) : Prop :=
  forall t, In t (threads s) -> t_phase t = Recorded ->
    exists info, _runs s !! t_run_id t = Some info /\ ended info.



Definition no_slash (p : string) : Prop :=
  forallb (fun c => negb (is_slash c)) (list_ascii_of_string p) = true.

(** *** Further inputs of the examples *)

(** Run [a] reports step 1 of 10, then fails. *)
Definition failed_after_report : list action :=
  [ StartTraining (request (Some "a")) uuid_text;
    Job 0 (Enter 0);
    Job 0 (Setup 1 2);
    Job 0 (Log 2 (at_step 1 10) (Some {["loss" := PFloat (8 # 10)]})) ].

(** A machine where the script is installed and no directory can be
    created at the empty path. *)
Definition posix_host : host :=
  {| home := "/root";
     path_exists := fun p => String.eqb p "/usr/local/bin/convert_hf_to_gguf.py";
     makedirs := fun d => if String.eqb d "" then Some "[Errno 2] No such file or directory" else None;
     subprocess_run := fun _ _ => Completed 0 "" |}.

Definition bare_request : ConvertRequest :=
  {| model_dir := "/out/merged"; output_path := "model.gguf"; quantization := "Q4_K_M" |}.

Definition merge_request : Merge.MergeRequest :=
  {| Merge.base_model_path := "/models/base";
     Merge.adapter_dir := "/out/adapter";
     Merge.output_path := "/out/merged" |}.

(** The adapter cannot be loaded. *)
Definition missing_adapter (c : Merge.call) : option string :=
  match c with
  | Merge.LoadAdapter _ => Some "adapter_config.json not found"
  | _ => None
  end.

(** A line whose second message has a role and no content. *)
Definition no_content_entry : json :=
  JObj [("messages",
         JArr [ JObj [("role", JStr "user"); ("content", JStr "Hi")];
                JObj [("role", JStr "tool"); ("name", JStr "search")] ])].

Definition loads_mixed (line : string) : option json :=
  if String.eqb line "" then None
  else if String.eqb line "tool" then Some no_content_entry
  else if String.eqb line "list" then Some (JArr [])
  else if String.eqb line "bare" then Some (JObj [])
  else Some chat_entry.

End Notions.

(** * Properties *)

Import Py Train Sidecar Convert Notions.

(** ** Arithmetic of the progress value *)

Section Rounding.

Lemma floor_mono (n d n' d' : Z) :
  0 < d -> 0 < d' -> n * d' <= n' * d -> n / d <= n' / d'.
Proof.
  intros Hd Hd' H.
  pose proof (Z.div_mod n d ltac:(lia)) as E.
  pose proof (Z.mod_pos_bound n d Hd) as B.
  pose proof (Z.div_mod n' d' ltac:(lia)) as E'.
  pose proof (Z.mod_pos_bound n' d' Hd') as B'.
  destruct (Z_le_gt_dec (n / d) (n' / d')) as [|G]; [assumption|exfalso].
  assert (n' / d' + 1 <= n / d) as G' by lia.
  assert (d' * (n' / d' + 1) * d <= d' * (n / d) * d) by nia.
  nia.
Qed.

Lemma round_half_even_mono (x y : Q) :
  (x <= y)%Q -> round_half_even x <= round_half_even y.
Proof.
  destruct x as [n d], y as [n' d']. unfold Qle, round_half_even. simpl. intros H.
  pose proof (floor_mono n (Zpos d) n' (Zpos d') ltac:(lia) ltac:(lia) H) as F.
  pose proof (Z.div_mod n (Zpos d) ltac:(lia)) as E.
  pose proof (Z.mod_pos_bound n (Zpos d) ltac:(lia)) as B.
  pose proof (Z.div_mod n' (Zpos d') ltac:(lia)) as E'.
  pose proof (Z.mod_pos_bound n' (Zpos d') ltac:(lia)) as B'.
  destruct (Z.eq_dec (n / Zpos d) (n' / Zpos d')) as [Heq|Hne].
  - rewrite <- Heq in *.
    assert ((n mod Zpos d) * Zpos d' <= (n' mod Zpos d') * Zpos d) as M by nia.
    destruct (Z.compare_spec (2 * (n mod Zpos d)) (Zpos d));
      destruct (Z.compare_spec (2 * (n' mod Zpos d')) (Zpos d'));
      destruct (Z.even (n / Zpos d)); try lia; exfalso; nia.
  - destruct (Z.compare_spec (2 * (n mod Zpos d)) (Zpos d));
      destruct (Z.compare_spec (2 * (n' mod Zpos d')) (Zpos d'));
      destruct (Z.even (n / Zpos d)); destruct (Z.even (n' / Zpos d')); lia.
Qed.

Lemma pow10_pos (k : N) : Zpos (pow10 k) = 10 ^ Z.of_N k.
Proof.
  unfold pow10. rewrite Z2Pos.id; [reflexivity|].
  apply Z.pow_pos_nonneg; lia.
Qed.

Lemma round_float_mono (x y : Q) (k : N) :
  (x <= y)%Q -> (round_float x k <= round_float y k)%Q.
Proof.
  intros H. unfold round_float. rewrite !Qred_correct.
  unfold Qle. simpl.
  apply Z.mul_le_mono_nonneg_r; [lia|].
  apply round_half_even_mono.
  apply Qmult_le_compat_r; [assumption|].
  unfold Qle. simpl. lia.
Qed.

Lemma truediv_defined (a b : Z) :
  b <> 0 -> py_truediv a b = Some (Qred (inject_Z a / inject_Z b)).
Proof.
  intros Hb. unfold py_truediv.
  destruct (Z.eqb_spec b 0); [contradiction|reflexivity].
Qed.

Lemma quotient_mono (a a' b : Z) :
  0 < b -> a <= a' -> (inject_Z a / inject_Z b <= inject_Z a' / inject_Z b)%Q.
Proof.
  intros Hb H. unfold Qdiv.
  apply Qmult_le_compat_r.
  - rewrite <- Zle_Qle. assumption.
  - apply Qinv_le_0_compat. replace 0%Q with (inject_Z 0) by reflexivity.
    rewrite <- Zle_Qle. lia.
Qed.

End Rounding.

(** ** The progress reporter *)

Lemma log_progress_positive (st : TrainerState) :
  0 < max_steps st ->
  log_progress st
  = Some (PFloat (Qred (inject_Z (global_step st) / inject_Z (max_steps st)))).
Proof.
  intros H. unfold log_progress.
  destruct (Z.ltb_spec 0 (max_steps st)); [|lia].
  rewrite truediv_defined by lia. reflexivity.
Qed.

Lemma log_progress_nonpositive (st : TrainerState) :
  max_steps st <= 0 -> log_progress st = Some (PInt 0).
Proof.
  intros H. unfold log_progress.
  destruct (Z.ltb_spec 0 (max_steps st)); [lia|reflexivity].
Qed.

Lemma log_progress_total (st : TrainerState) : is_Some (log_progress st).
Proof.
  destruct (Z_lt_le_dec 0 (max_steps st)).
  - rewrite log_progress_positive by assumption. eauto.
  - rewrite log_progress_nonpositive by assumption. eauto.
Qed.

Lemma on_log_total (self : MetricsCallback) (now : Q) (st : TrainerState)
    (logs : option (gmap string pyval)) (fs : files) :
  is_Some (on_log self now st logs fs).
Proof.
  destruct logs as [logs|]; simpl; [|eauto].
  unfold log_metrics. destruct (log_progress_total st) as [v ->]. simpl. eauto.
Qed.

Lemma read_after_on_log (self : MetricsCallback) (now : Q) (st : TrainerState)
    (logs : gmap string pyval) (fs fs' : files) :
  on_log self now st (Some logs) fs = Some fs' ->
  read_progress self fs' = shown_progress st.
Proof.
  simpl. unfold log_metrics, read_progress, shown_progress.
  destruct (log_progress st) as [v|]; simpl; [|discriminate].
  intros [= <-]. rewrite lookup_insert_eq. simpl.
  rewrite !lookup_insert_ne by discriminate. rewrite lookup_insert_eq. reflexivity.
Qed.

Lemma shown_progress_mono (m : Z) (st st' : TrainerState) (p p' : Q) :
  max_steps st = m -> max_steps st' = m ->
  global_step st <= global_step st' ->
  shown_progress st = Some p -> shown_progress st' = Some p' -> (p <= p')%Q.
Proof.
  intros Hm Hm' Hle. unfold shown_progress.
  destruct (Z_lt_le_dec 0 m).
  - rewrite !log_progress_positive by lia. simpl. intros [= <-] [= <-].
    apply round_float_mono. rewrite !Qred_correct, Hm, Hm'.
    apply quotient_mono; assumption.
  - rewrite !log_progress_nonpositive by lia. simpl. intros [= <-] [= <-].
    apply Qle_refl.
Qed.

Lemma recorded_progress_cons (self : MetricsCallback) (c : log_call)
    (rest : list log_call) (fs : files) :
  exists fs',
    on_log self (at_time c) (trainer_state c) (logs c) fs = Some fs' /\
    recorded_progress self (c :: rest) fs
    = match logs c, shown_progress (trainer_state c) with
      | Some _, Some p => p :: recorded_progress self rest fs'
      | _, _ => recorded_progress self rest fs'
      end.
Proof.
  destruct (on_log_total self (at_time c) (trainer_state c) (logs c) fs) as [fs' E].
  exists fs'. split; [exact E|]. cbn [recorded_progress]. rewrite E.
  destruct (logs c) as [l|] eqn:L; [|reflexivity].
  rewrite (read_after_on_log _ _ _ _ _ _ E). reflexivity.
Qed.

Lemma recorded_progress_origin (self : MetricsCallback) (calls : list log_call)
    (fs : files) (p : Q) :
  In p (recorded_progress self calls fs) ->
  exists c, In c calls /\ shown_progress (trainer_state c) = Some p.
Proof.
  revert fs. induction calls as [|c rest IH]; intros fs; [intros []|].
  destruct (recorded_progress_cons self c rest fs) as (fs' & _ & ->).
  destruct (logs c), (shown_progress (trainer_state c)) as [q|] eqn:S; simpl;
    intros H; try (destruct (IH _ H) as (c' & ? & ?); exists c'; split; [right|]; assumption).
  destruct H as [<-|H].
  - exists c. split; [left; reflexivity|assumption].
  - destruct (IH _ H) as (c' & ? & ?). exists c'. split; [right|]; assumption.
Qed.

Lemma recorded_progress_sorted (self : MetricsCallback) (calls : list log_call)
    (fs : files) (m : Z) :
  Forall (fun c => max_steps (trainer_state c) = m) calls ->
  StronglySorted Z.le (steps calls) ->
  StronglySorted Qle (recorded_progress self calls fs).
Proof.
  revert fs. induction calls as [|c rest IH]; intros fs Hm Hs; [constructor|].
  apply Forall_cons in Hm as [Hc Hm]. cbn [steps map] in Hs.
  apply StronglySorted_inv in Hs as [Hs Hhd].
  destruct (recorded_progress_cons self c rest fs) as (fs' & _ & ->).
  destruct (logs c), (shown_progress (trainer_state c)) as [p|] eqn:S;
    try (apply IH; assumption).
  constructor; [apply IH; assumption|].
  apply List.Forall_forall. intros q Hq.
  destruct (recorded_progress_origin _ _ _ _ Hq) as (c' & Hin & Hq').
  apply (shown_progress_mono m (trainer_state c) (trainer_state c')); try assumption.
  - rewrite List.Forall_forall in Hm. apply Hm. assumption.
  - rewrite List.Forall_forall in Hhd. apply Hhd. unfold steps.
    apply List.in_map_iff. exists c'. split; [reflexivity|assumption].
Qed.

(** ** The dataset transform *)

Lemma append_cons (x : ascii) (a b : string) : String x a +:+ b = String x (a +:+ b).
Proof. reflexivity. Qed.

Lemma append_assoc (a b c : string) : (a +:+ b) +:+ c = a +:+ b +:+ c.
Proof.
  induction a as [|x a IH]; [reflexivity|].
  rewrite !append_cons, IH. reflexivity.
Qed.

Lemma append_empty_r (a : string) : a +:+ "" = a.
Proof.
  induction a as [|x a IH]; [reflexivity|].
  rewrite append_cons, IH. reflexivity.
Qed.

Lemma eq_str_true (v : json) (s : string) : eq_str v s = true -> v = JStr s.
Proof.
  destruct v; simpl; try discriminate.
  intros H. apply String.eqb_eq in H. congruence.
Qed.

Section DatasetFacts.

Variable json_loads : string -> option json.
Variable str_other : json -> string.

Lemma format_messages_fields (items : list json) (msgs : list (json * json)) (acc : string) :
  all_fields items = Some msgs ->
  format_messages str_other items acc = inr (acc +:+ expected_text str_other msgs).
Proof.
  revert msgs acc. induction items as [|msg rest IH]; intros msgs acc.
  - intros [= <-]. simpl. rewrite append_empty_r. reflexivity.
  - cbn [all_fields]. destruct (message_fields msg) as [[role content]|] eqn:M; [|discriminate].
    simpl. destruct (all_fields rest) as [ms|] eqn:R; [|discriminate].
    simpl. intros [= <-].
    destruct msg; try discriminate. simpl in M.
    destruct (obj_lookup fields "role") as [r|] eqn:Lr; [|discriminate]. simpl in M.
    destruct (obj_lookup fields "content") as [c|] eqn:Lc; [|discriminate].
    injection M as -> ->.
    cbn [format_messages getitem bind]. rewrite Lr, Lc. cbn [bind].
    rewrite (IH ms) by reflexivity. f_equal.
    cbn [expected_text]. unfold recognized.
    destruct (eq_str role "system") eqn:E1.
    { apply eq_str_true in E1 as ->. cbn [orb tagged_segment]. rewrite !append_assoc. reflexivity. }
    destruct (eq_str role "user") eqn:E2.
    { apply eq_str_true in E2 as ->. cbn [orb tagged_segment]. rewrite !append_assoc. reflexivity. }
    destruct (eq_str role "assistant") eqn:E3.
    { apply eq_str_true in E3 as ->. cbn [orb tagged_segment]. rewrite !append_assoc. reflexivity. }
    reflexivity.
Qed.




End DatasetFacts.

(** ** The process *)

Lemma for_each_skip {A : Type} (xs : list A) (s : state) :
  for_each xs (fun _ st => st) s = s.
Proof. unfold for_each. induction xs as [|x xs IH]; simpl; [reflexivity|exact IH]. Qed.

Lemma get_status_lookup (run_id : string) (s : state) :
  get_status run_id s = registry_lookup run_id s.
Proof.
  unfold get_status, registry_lookup.
  destruct (_runs s !! run_id) as [info|]; [|reflexivity].
  destruct (String.eqb (RunInfo.status info) "training"); [|reflexivity].
  rewrite for_each_skip. reflexivity.
Qed.

Lemma run_cons (a : action) (rest : list action) (s s2 : state) (outs : list output) :
  run (a :: rest) s = Some (s2, outs) ->
  exists s1 o outs',
    step a s = Some (s1, o) /\ run rest s1 = Some (s2, outs') /\ outs = o :: outs'.
Proof.
  cbn [run]. destruct (step a s) as [[s1 o]|] eqn:Hs; [|discriminate]. simpl.
  destruct (run rest s1) as [[s2' outs']|] eqn:Hr; [|discriminate]. simpl.
  intros [= <- <-]. exists s1, o, outs'. auto.
Qed.

Lemma run_app (acts later : list action) (s s1 s2 : state) (outs outs' : list output) :
  run acts s = Some (s1, outs) -> run later s1 = Some (s2, outs') ->
  run (acts ++ later) s = Some (s2, outs ++ outs').
Proof.
  revert s outs. induction acts as [|a acts IH]; intros s outs.
  - intros [= <- <-]. simpl. intros ->. reflexivity.
  - intros H H'. apply run_cons in H as (s0 & o & outs0 & Hs & Hr & ->).
    cbn [run app]. rewrite Hs. simpl. rewrite (IH _ _ Hr H'). reflexivity.
Qed.

(** A property of the fresh process that every step keeps holds wherever
    a run leads. *)
Lemma run_invariant (P : state -> Prop) :
  (forall s a s' o, P s -> step a s = Some (s', o) -> P s') ->
  forall acts s s' outs, P s -> run acts s = Some (s', outs) -> P s'.
Proof.
  intros Hstep acts. induction acts as [|a acts IH]; intros s s' outs HP H.
  - injection H as <- <-. exact HP.
  - apply run_cons in H as (s1 & o & outs' & Hs & Hr & ->). eauto.
Qed.

Lemma job_step_cases (i : nat) (ev : job_event) (s s' : state) :
  job_step i ev s = Some s' ->
  exists t, threads s !! i = Some t /\ job_case i s t ev s'.
Proof.
  unfold job_step. destruct (threads s !! i) as [t|]; [|discriminate]. simpl.
  intros H. exists t. split; [reflexivity|].
  destruct ev, (t_phase t) eqn:P; try discriminate; try (injection H as <-).
  all: try (econstructor; eassumption).
  all: try (constructor; rewrite P; discriminate).
  match type of H with
  | context [on_log ?c ?n ?x ?l ?f] =>
      destruct (on_log_total c n x l f) as [fs' E]; rewrite E in H
  end.
  injection H as <-. econstructor; eassumption.
Qed.

Lemma boot_slot_inv (disk : files) : slot_inv (boot disk).
Proof. reflexivity. Qed.

Lemma slot_inv_thread (s : state) (i : nat) (t : thread) :
  slot_inv s -> threads s !! i = Some t ->
  i = 0%nat /\ threads s = [t] /\ _current_run s = Some (t_run_id t) /\
  is_Some (_runs s !! t_run_id t) /\
  (t_phase t <> Recorded -> _runs s !! t_run_id t = Some training_info).
Proof.
  unfold slot_inv. destruct (_current_run s) as [c|].
  - intros (t0 & -> & <- & Hsome & Htr) Hi.
    destruct i as [|i]; simpl in Hi; [|destruct i; discriminate].
    injection Hi as <-. auto.
  - intros -> Hi. discriminate.
Qed.

Lemma step_slot_inv (s : state) (a : action) (s' : state) (o : output) :
  slot_inv s -> step a s = Some (s', o) -> slot_inv s'.
Proof.
  intros Inv. destruct a as [|req uuid4|run_id|i ev]; simpl.
  - intros [= <- <-]. exact Inv.
  - unfold start_training. destruct (_current_run s) as [c|] eqn:C.
    + intros [= <- <-]. exact Inv.
    + intros [= <- <-]. unfold slot_inv in *. rewrite C in Inv. simpl. rewrite Inv.
      eexists. split; [reflexivity|]. simpl. rewrite lookup_insert_eq. eauto.
  - rewrite get_status_lookup. intros [= <- <-]. exact Inv.
  - destruct (job_step i ev s) as [s1|] eqn:J; [|discriminate]. simpl.
    intros [= <- <-].
    apply job_step_cases in J as (t & Ht & J).
    destruct (slot_inv_thread _ _ _ Inv Ht) as (-> & Hts & Hc & Hsome & Htr).
    unfold slot_inv.
    destruct J as [now P|now samples t0 P|now st lg t0 samples cb fs' P E
                  |t0 samples cb P|loss now t0 samples cb P|err P|P];
      simpl; rewrite ?Hc, ?Hts; simpl.
    + eexists. split; [reflexivity|]. simpl. split; [reflexivity|]. split; [assumption|].
      intros _. apply Htr. rewrite P. discriminate.
    + eexists. split; [reflexivity|]. simpl. split; [reflexivity|]. split; [assumption|].
      intros _. apply Htr. rewrite P. discriminate.
    + exists t. repeat split; try assumption.
    + exists t. repeat split; try assumption.
    + eexists. split; [reflexivity|]. simpl. rewrite lookup_insert_eq.
      split; [reflexivity|]. split; [eauto|]. intros []. reflexivity.
    + eexists. split; [reflexivity|]. simpl. rewrite lookup_insert_eq.
      split; [reflexivity|]. split; [eauto|]. intros []. reflexivity.
    + reflexivity.
Qed.

Lemma run_slot_inv (acts : list action) (s s' : state) (outs : list output) :
  slot_inv s -> run acts s = Some (s', outs) -> slot_inv s'.
Proof. apply run_invariant. intros ? ? ? ?. apply step_slot_inv. Qed.

(** How one step changes the registry at a key: not at all, or an
    admitted request stores a fresh record there, or the thread of the run
    under that key records how the run ended. *)
Lemma step_registry (s : state) (a : action) (s' : state) (o : output) (k : string) :
  slot_inv s -> step a s = Some (s', o) ->
  _runs s' !! k = _runs s !! k
  \/ (exists body, o = StartOut (Return body) /\ Started.run_id body = k /\
                   _runs s' !! k = Some training_info)
  \/ (_runs s !! k = Some training_info /\
      exists info, _runs s' !! k = Some info /\ ended info).
Proof.
  intros Inv. destruct a as [|req uuid4|run_id|i ev]; simpl.
  - intros [= <- <-]. left. reflexivity.
  - unfold start_training. destruct (_current_run s) as [c|] eqn:C.
    + intros [= <- <-]. left. reflexivity.
    + intros [= <- <-]. simpl.
      destruct (decide (or_else (TrainRequest.run_id req) (prefix 12 uuid4) = k)) as [<-|Hne].
      * right. left. eexists. split; [reflexivity|]. simpl.
        rewrite lookup_insert_eq. auto.
      * left. rewrite lookup_insert_ne by assumption. reflexivity.
  - rewrite get_status_lookup. intros [= <- <-]. left. reflexivity.
  - destruct (job_step i ev s) as [s1|] eqn:J; [|discriminate]. simpl.
    intros [= <- <-].
    apply job_step_cases in J as (t & Ht & J).
    destruct (slot_inv_thread _ _ _ Inv Ht) as (-> & Hts & Hc & Hsome & Htr).
    destruct J as [now P|now samples t0 P|now st lg t0 samples cb fs' P E
                  |t0 samples cb P|loss now t0 samples cb P|err P|P];
      simpl; try (left; reflexivity).
    + destruct (decide (t_run_id t = k)) as [<-|Hne].
      * right. right. split; [apply Htr; rewrite P; discriminate|].
        rewrite lookup_insert_eq. eexists. split; [reflexivity|].
        left. eauto.
      * left. rewrite lookup_insert_ne by assumption. reflexivity.
    + destruct (decide (t_run_id t = k)) as [<-|Hne].
      * right. right. split; [apply Htr; assumption|].
        rewrite lookup_insert_eq. eexists. split; [reflexivity|].
        right. eauto.
      * left. rewrite lookup_insert_ne by assumption. reflexivity.
Qed.

Lemma run_registry (acts : list action) (s s' : state) (outs : list output) (k : string) :
  slot_inv s -> run acts s = Some (s', outs) ->
  (is_Some (_runs s' !! k) -> is_Some (_runs s !! k) \/ In k (started_ids outs)) /\
  (is_Some (_runs s !! k) -> is_Some (_runs s' !! k)) /\
  (forall info, _runs s !! k = Some info -> terminal info ->
                ~ In k (started_ids outs) -> _runs s' !! k = Some info).
Proof.
  revert s outs. induction acts as [|a acts IH]; intros s outs Inv H.
  - injection H as <- <-. simpl. auto.
  - apply run_cons in H as (s1 & o & outs' & Hs & Hr & ->).
    pose proof (step_slot_inv _ _ _ _ Inv Hs) as Inv1.
    destruct (IH _ _ Inv1 Hr) as (Hback & Hkeep & Hterm).
    destruct (step_registry _ _ _ _ k Inv Hs)
      as [Heq|[(body & -> & <- & Hnew)|(Hold & info1 & Hnew & Hend)]].
    + rewrite Heq in *. split; [|split].
      * intros Hk. destruct (Hback Hk) as [?|Hin]; [left; assumption|right].
        destruct o as [?|[]|?|]; simpl; auto.
      * assumption.
      * intros info Hi Ht Hn. apply Hterm; try assumption.
        intros Hin. apply Hn. destruct o as [?|[]|?|]; simpl; auto.
    + split; [|split].
      * intros _. right. left. reflexivity.
      * intros _. apply Hkeep. rewrite Hnew. eauto.
      * intros info _ _ Hn. exfalso. apply Hn. left. reflexivity.
    + split; [|split].
      * intros _. left. rewrite Hold. eauto.
      * intros _. apply Hkeep. rewrite Hnew. eauto.
      * intros info Hi [Ht|Ht] _; rewrite Hold in Hi; injection Hi as <-; discriminate.
Qed.

Lemma run_records (acts : list action) (s s' : state) (outs : list output) :
  slot_inv s ->
  (forall k info, _runs s !! k = Some info -> info = training_info \/ ended info) ->
  run acts s = Some (s', outs) ->
  forall k info, _runs s' !! k = Some info -> info = training_info \/ ended info.
Proof.
  revert s outs. induction acts as [|a acts IH]; intros s outs Inv Hrec H.
  - injection H as <- <-. exact Hrec.
  - apply run_cons in H as (s1 & o & outs' & Hs & Hr & ->).
    apply (IH s1 outs' (step_slot_inv _ _ _ _ Inv Hs)); [|exact Hr].
    intros k info Hk.
    destruct (step_registry _ _ _ _ k Inv Hs)
      as [Heq|[(body & _ & _ & Hnew)|(_ & info1 & Hnew & Hend)]].
    + rewrite Heq in Hk. eauto.
    + rewrite Hnew in Hk. injection Hk as <-. left. reflexivity.
    + rewrite Hnew in Hk. injection Hk as <-. right. assumption.
Qed.

Lemma reachable_records (acts : list action) (disk : files) (s : state)
    (outs : list output) (k : string) (info : RunInfo.t) :
  run acts (boot disk) = Some (s, outs) -> _runs s !! k = Some info ->
  info = training_info \/ ended info.
Proof.
  intros H. apply (run_records acts (boot disk) s outs); [apply boot_slot_inv| |exact H].
  intros k' info'. simpl. rewrite lookup_empty. discriminate.
Qed.

(** ** Admission *)

(** C1, refuted as stated: a request whose run id is the empty string is
    admitted, and its record is stored under a generated id; nothing is
    stored under the id the caller gave. *)
Lemma empty_run_id_is_replaced :
  TrainRequest.run_id (request (Some "")) = Some "" /\
  exists s',
    start_training (request (Some "")) uuid_text (boot ∅)
    = (s', Return {| Started.run_id := "3f2b8c1e-9a7"; Started.status := "training" |}) /\
    _runs s' !! "" = None /\
    _runs s' !! "3f2b8c1e-9a7" = Some training_info.
Proof.
  split; [reflexivity|]. eexists. split; [reflexivity|].
  split; vm_compute; reflexivity.
Qed.

(** C1, as amended.  A start-training request that finds a run active is
    answered with a 409 whose detail names that run, and leaves the whole
    state as it was, so no record is stored for it.  A request that finds
    no run active is admitted: it is answered with the assigned run id and
    the status ["training"], and a record with the status ["training"] and
    empty metrics is stored under that id, which becomes the active run.
    The assigned id is the caller's when the request carries one that is
    not the empty string, and the first 12 characters of a generated uuid4
    otherwise. *)
Theorem start_training_admission (req : TrainRequest.t) (uuid4 : string) (s : state) :
  match _current_run s with
  | Some current =>
      start_training req uuid4 s
      = (s, HTTPException 409 ("Training already in progress: " +:+ current))
  | None =>
      let assigned :=
        match TrainRequest.run_id req with
        | Some given => if decide (given = "") then prefix 12 uuid4 else given
        | None => prefix 12 uuid4
        end in
      exists s',
        start_training req uuid4 s
        = (s', Return {| Started.run_id := assigned; Started.status := "training" |}) /\
        _runs s' !! assigned
        = Some {| RunInfo.status := "training"; RunInfo.metrics := Some ∅;
                  RunInfo.error := None |} /\
        _current_run s' = Some assigned /\
        (forall k, k <> assigned -> _runs s' !! k = _runs s !! k)
  end.
Proof.
  unfold start_training. destruct (_current_run s) as [current|]; [reflexivity|].
  assert (or_else (TrainRequest.run_id req) (prefix 12 uuid4)
          = match TrainRequest.run_id req with
            | Some given => if decide (given = "") then prefix 12 uuid4 else given
            | None => prefix 12 uuid4
            end) as <-.
  { unfold or_else. destruct (TrainRequest.run_id req) as [given|]; [|reflexivity].
    destruct (String.eqb_spec given ""), (decide (given = "")); congruence. }
  eexists. split; [reflexivity|]. simpl. rewrite lookup_insert_eq.
  repeat split. intros k Hk. rewrite lookup_insert_ne by congruence. reflexivity.
Qed.

(** ** The background job *)






(** ** Status queries *)

(** C3.  After run [abc123] is started and the trainer reports step 1 of
    10, the metrics file of the run holds the progress 0.1, and a status
    query still answers with the record the run was created with: status
    ["training"] and empty metrics.  The reporter writes the file and never
    the registry. *)
Theorem status_query_after_first_report :
  exists s outs,
    run first_report (boot ∅) = Some (s, outs) /\
    (fs s !! "/out/metrics.json") ≫= (.!! "progress") = Some (PFloat (1 # 10)) /\
    get_status "abc123" s
    = (s, Return {| RunInfo.status := "training"; RunInfo.metrics := Some ∅;
                    RunInfo.error := None |}).
Proof.
  exists (state_after first_report), (answers first_report).
  split; [|split]; vm_compute; reflexivity.
Qed.

(** C6.  A status query for a run id under which no start-training request
    was ever admitted is answered with a 404 whose detail names the id,
    and leaves the state as it was. *)
Theorem unknown_run_not_found (acts : list action) (disk : files) (s : state)
    (outs : list output) (run_id : string) :
  run acts (boot disk) = Some (s, outs) ->
  ~ In run_id (started_ids outs) ->
  get_status run_id s = (s, HTTPException 404 ("Run " +:+ run_id +:+ " not found")).
Proof.
  intros H Hn. rewrite get_status_lookup. unfold registry_lookup.
  destruct (_runs s !! run_id) as [info|] eqn:L; [exfalso|reflexivity].
  destruct (run_registry acts (boot disk) s outs run_id (boot_slot_inv disk) H) as (Hback & _).
  destruct Hback as [[x Hx]|Hin]; [eauto| |contradiction].
  simpl in Hx. rewrite lookup_empty in Hx. discriminate.
Qed.

Lemma unknown_run_not_found_witness :
  get_status "b" (state_after failed_run)
  = (state_after failed_run, HTTPException 404 "Run b not found").
Proof.
  apply (unknown_run_not_found failed_run ∅ (state_after failed_run) (answers failed_run) "b").
  - vm_compute. reflexivity.
  - vm_compute. intros [H|[]]. discriminate H.
Defined.

(** C9.  The status handler answers as a plain lookup in the registry
    does, and leaves the state as it was, whatever the stored status; in
    every state the process can reach, a record whose status is
    ["training"] still has the empty metrics it was created with; and a
    call of the reporter by the trainer leaves the registry as it was. *)
Theorem get_status_is_registry_lookup :
  (forall run_id s, get_status run_id s = registry_lookup run_id s) /\
  (forall acts disk s outs run_id info,
      run acts (boot disk) = Some (s, outs) ->
      get_status run_id s = (s, Return info) ->
      RunInfo.status info = "training" ->
      RunInfo.metrics info = Some ∅) /\
  (forall i now st logs s s',
      job_step i (Log now st logs) s = Some s' -> _runs s' = _runs s).
Proof.
  split; [exact get_status_lookup|split].
  - intros acts disk s outs run_id info H G St.
    rewrite get_status_lookup in G. unfold registry_lookup in G.
    destruct (_runs s !! run_id) as [info'|] eqn:L; [|discriminate].
    injection G as <-.
    destruct (reachable_records _ _ _ _ _ _ H L)
      as [->|[(loss & el & n & ->)|(err & ->)]]; [reflexivity|discriminate..].
  - intros i now st lg s s' J. apply job_step_cases in J as (t & _ & J).
    inversion J; subst; reflexivity.
Qed.

Lemma get_status_is_registry_lookup_witness :
  get_status "abc123" (state_after first_report)
  = registry_lookup "abc123" (state_after first_report) /\
  RunInfo.metrics training_info = Some ∅.
Proof.
  split.
  - apply (proj1 get_status_is_registry_lookup).
  - apply (proj1 (proj2 get_status_is_registry_lookup)
             first_report ∅ (state_after first_report) (answers first_report) "abc123").
    + vm_compute. reflexivity.
    + vm_compute. reflexivity.
    + reflexivity.
Defined.

(** ** The registry *)

(** C8, refuted as stated: run [a] fails and its thread ends; a second
    request under the run id [a] is then admitted, and the record of the
    failed run is replaced by a fresh ["training"] record. *)
Lemma reused_run_id_replaces_record :
  exists s outs s' o,
    run failed_run (boot ∅) = Some (s, outs) /\
    _runs s !! "a" = Some (failed_info "CUDA out of memory") /\
    terminal (failed_info "CUDA out of memory") /\
    step (StartTraining (request (Some "a")) uuid_text) s = Some (s', o) /\
    _runs s' !! "a" = Some training_info /\
    _runs s' !! "a" <> _runs s !! "a".
Proof.
  exists (state_after failed_run), (answers failed_run),
         (state_after (failed_run ++ [StartTraining (request (Some "a")) uuid_text])),
         (StartOut (Return {| Started.run_id := "a"; Started.status := "training" |})).
  split; [vm_compute; reflexivity|].
  split; [vm_compute; reflexivity|].
  split; [right; reflexivity|].
  split; [vm_compute; reflexivity|].
  split; [vm_compute; reflexivity|].
  vm_compute. discriminate.
Qed.

(** C8, as amended.  From any state the process can reach and through
    any further actions: a run id that has a record keeps having one (no
    key leaves the registry), and a record whose status is ["done"] or
    ["failed"] is still the record under its run id afterwards, unless a
    start-training request has been admitted under that same run id in
    between. *)
Theorem records_persist (acts : list action) (disk : files) (s : state)
    (outs : list output) (later : list action) (s' : state) (outs' : list output) :
  run acts (boot disk) = Some (s, outs) ->
  run later s = Some (s', outs') ->
  (forall k, is_Some (_runs s !! k) -> is_Some (_runs s' !! k)) /\
  (forall k info, _runs s !! k = Some info -> terminal info ->
                  ~ In k (started_ids outs') -> _runs s' !! k = Some info).
Proof.
  intros H H'.
  pose proof (run_slot_inv _ _ _ _ (boot_slot_inv disk) H) as Inv.
  split.
  - intros k. apply (run_registry later s s' outs' k Inv H').
  - intros k. apply (run_registry later s s' outs' k Inv H').
Qed.

Lemma records_persist_witness :
  is_Some (_runs (state_after (failed_run ++ [GetStatus "a"; Health])) !! "a") /\
  _runs (state_after (failed_run ++ [GetStatus "a"; Health])) !! "a"
  = Some (failed_info "CUDA out of memory").
Proof.
  destruct (records_persist failed_run ∅ (state_after failed_run) (answers failed_run)
              [GetStatus "a"; Health]
              (state_after (failed_run ++ [GetStatus "a"; Health]))
              (skipn 3 (answers (failed_run ++ [GetStatus "a"; Health]))))
    as [Hkeep Hterm].
  - vm_compute. reflexivity.
  - vm_compute. reflexivity.
  - split.
    + apply Hkeep. vm_compute. eauto.
    + apply Hterm.
      * vm_compute. reflexivity.
      * right. reflexivity.
      * vm_compute. intros [].
Defined.

(** ** Progress *)

(** C5, refuted as stated: at step 1 with [max_steps = -2] the divisor is
    not zero and the quotient is -1/2, yet the progress is 0. *)
Lemma negative_max_steps_reports_zero :
  max_steps (at_step 1 (-2)) <> 0 /\
  py_truediv (global_step (at_step 1 (-2))) (max_steps (at_step 1 (-2))) = Some (-1 # 2)%Q /\
  log_progress (at_step 1 (-2)) = Some (PInt 0).
Proof. split; [discriminate|split; reflexivity]. Qed.

(** C5, as amended.  Every call of the reporter returns without raising,
    whatever the event; the progress it computes is the quotient of the
    current step by [max_steps] when [max_steps] is positive, and 0 when
    [max_steps] is zero or negative, so no division by zero is reached. *)
Theorem log_progress_guarded (self : MetricsCallback) (now : Q) (st : TrainerState)
    (logs : option (gmap string pyval)) (fs : files) :
  is_Some (on_log self now st logs fs) /\
  (0 < max_steps st ->
   exists q, log_progress st = Some (PFloat q) /\
             (q == inject_Z (global_step st) / inject_Z (max_steps st))%Q) /\
  (max_steps st <= 0 -> log_progress st = Some (PInt 0)).
Proof.
  split; [apply on_log_total|split].
  - intros H. eexists. split; [apply log_progress_positive; assumption|].
    apply Qred_correct.
  - apply log_progress_nonpositive.
Qed.

Lemma log_progress_guarded_witness :
  is_Some (on_log reporter 2 (at_step 0 0) (Some ∅) ∅) /\
  (exists q, log_progress (at_step 1 10) = Some (PFloat q) /\
             (q == inject_Z 1 / inject_Z 10)%Q) /\
  log_progress (at_step 7 0) = Some (PInt 0).
Proof.
  split; [|split].
  - apply (proj1 (log_progress_guarded reporter 2 (at_step 0 0) (Some ∅) ∅)).
  - apply (proj1 (proj2 (log_progress_guarded reporter 2 (at_step 1 10) None ∅))).
    reflexivity.
  - apply (proj2 (proj2 (log_progress_guarded reporter 2 (at_step 7 0) None ∅))).
    discriminate.
Defined.

(** C4, refuted as stated: the step counter goes from 5 to 6 while
    [max_steps] goes from 10 to 100, and the recorded progress drops from
    0.5 to 0.06. *)
Lemma progress_drops_when_max_steps_grows :
  Sorted Z.le (steps [loss_event 1 5 10; loss_event 2 6 100]) /\
  recorded_progress reporter [loss_event 1 5 10; loss_event 2 6 100] ∅
  = [(1 # 2)%Q; (3 # 50)%Q] /\
  ~ Sorted Qle (recorded_progress reporter [loss_event 1 5 10; loss_event 2 6 100] ∅).
Proof.
  split; [|split].
  - repeat constructor. discriminate.
  - vm_compute. reflexivity.
  - intros H. apply Sorted_inv in H as [_ H]. revert H. vm_compute.
    intros H. inversion H as [|? ? Hle]. apply Hle. reflexivity.
Qed.

(** C4, as amended.  If, over the calls of the reporter in one run, the
    step counter never decreases and [max_steps] stays the same, the
    progress values recorded one after the other never decrease; and in
    every state the process can reach, a record whose status is ["done"]
    has the progress 1.0 in its metrics. *)
Theorem progress_nondecreasing_and_complete :
  (forall self calls fs m,
      Forall (fun c => max_steps (trainer_state c) = m) calls ->
      Sorted Z.le (steps calls) ->
      Sorted Qle (recorded_progress self calls fs)) /\
  (forall acts disk s outs run_id info,
      run acts (boot disk) = Some (s, outs) ->
      _runs s !! run_id = Some info ->
      RunInfo.status info = "done" ->
      RunInfo.metrics info ≫= (.!! "progress") = Some (PFloat 1)).
Proof.
  split.
  - intros self calls fs m Hm Hs. apply StronglySorted_Sorted.
    apply (recorded_progress_sorted self calls fs m Hm).
    apply Sorted_StronglySorted; [|assumption].
    intros x y z. apply Z.le_trans.
  - intros acts disk s outs run_id info H L St.
    destruct (reachable_records _ _ _ _ _ _ H L)
      as [->|[(loss & el & n & ->)|(err & ->)]]; [discriminate| |discriminate].
    simpl. unfold final_metrics.
    rewrite !lookup_insert_ne by discriminate. apply lookup_insert_eq.
Qed.

Lemma progress_nondecreasing_and_complete_witness :
  Sorted Qle (recorded_progress reporter
                [loss_event 1 1 10; loss_event 2 2 10; loss_event 3 10 10] ∅) /\
  RunInfo.metrics (done_info (final_metrics (PFloat (42 # 100)) 61 2)) ≫= (.!! "progress")
  = Some (PFloat 1).
Proof.
  split.
  - apply (proj1 progress_nondecreasing_and_complete reporter _ ∅ 10).
    + repeat constructor.
    + repeat constructor; discriminate.
  - apply (proj2 progress_nondecreasing_and_complete completed_run ∅
             (state_after completed_run) (answers completed_run) "a").
    + vm_compute. reflexivity.
    + vm_compute. reflexivity.
    + reflexivity.
Defined.

(** ** The dataset transform *)



(** ** Conversion *)




(** ** One run at a time *)






(** ** Threads, records and files *)

Lemma append_inj_l (a b b' : string) : a +:+ b = a +:+ b' -> b = b'.
Proof.
  induction a as [|x a IH]; [intros H; exact H|].
  rewrite !append_cons. intros [= H]. auto.
Qed.

Lemma path_join_inj (dir b b' : string) : path_join dir b = path_join dir b' -> b = b'.
Proof.
  unfold path_join. destruct (String.eqb dir "" || ends_with_slash dir)%bool; intros H.
  - exact (append_inj_l _ _ _ H).
  - apply append_inj_l in H. apply (append_inj_l "/") in H. exact H.
Qed.

Lemma metrics_status_distinct (dir : string) : metrics_file dir <> status_file dir.
Proof. intros H. apply path_join_inj in H. discriminate. Qed.

Lemma on_log_frame (self : MetricsCallback) (now : Q) (st : TrainerState)
    (lg : option (gmap string pyval)) (fs fs' : files) (path : string) :
  on_log self now st lg fs = Some fs' -> path <> metrics_path self ->
  fs' !! path = fs !! path.
Proof.
  destruct lg as [l|]; simpl; [|intros [= <-] _; reflexivity].
  destruct (log_metrics self now st l) as [m|]; simpl; [|discriminate].
  intros [= <-] Hp. rewrite lookup_insert_ne by congruence. reflexivity.
Qed.

Lemma step_files_inv (s : state) (a : action) (s' : state) (o : output) :
  slot_inv s -> files_inv s -> step a s = Some (s', o) -> files_inv s'.
Proof.
  intros Inv Fi. destruct a as [|req uuid4|run_id|i ev]; simpl.
  - intros [= <- <-]. exact Fi.
  - unfold start_training. destruct (_current_run s) as [c|] eqn:C.
    + intros [= <- <-]. exact Fi.
    + intros [= <- <-]. unfold slot_inv in Inv. rewrite C in Inv.
      intros t. simpl. rewrite Inv. simpl. intros [<-|[]]. exact I.
  - rewrite get_status_lookup. intros [= <- <-]. exact Fi.
  - destruct (job_step i ev s) as [s1|] eqn:J; [|discriminate]. simpl.
    intros [= <- <-].
    apply job_step_cases in J as (t & Ht & J).
    destruct (slot_inv_thread _ _ _ Inv Ht) as (-> & Hts & Hc & Hsome & Htr).
    pose proof (Fi t) as Ft. rewrite Hts in Ft. specialize (Ft (or_introl eq_refl)).
    destruct J as [now P|now samples t0 P|now st lg t0 samples cb fs' P E
                  |t0 samples cb P|loss now t0 samples cb P|err P|P];
      intros t'; simpl; rewrite ?Hts; simpl; try (intros [<-|[]]; simpl; exact I).
    + intros [<-|[]]. simpl. unfold out_dir, write_initial_status. simpl.
      apply lookup_insert_eq.
    + intros [<-|[]]. simpl. rewrite P in Ft. unfold out_dir in *. simpl. auto.
    + intros [<-|[]]. rewrite P in *. destruct Ft as (Hm & Hs & Hst).
      split; [exact Hm|split; [exact Hs|]].
      rewrite (on_log_frame _ _ _ _ _ _ (status_file (out_dir t)) E); [exact Hst|].
      rewrite Hm. intros H. symmetry in H. exact (metrics_status_distinct _ H).
    + intros [<-|[]]. rewrite P in *. destruct Ft as (Hm & Hs & Hst).
      split; [exact Hm|split; [exact Hs|]]. right.
      unfold on_train_end, _write_status. rewrite Hs. apply lookup_insert_eq.
    + intros [].
Qed.

Lemma step_settled_inv (s : state) (a : action) (s' : state) (o : output) :
  slot_inv s -> settled_inv s -> step a s = Some (s', o) -> settled_inv s'.
Proof.
  intros Inv Se. destruct a as [|req uuid4|run_id|i ev]; simpl.
  - intros [= <- <-]. exact Se.
  - unfold start_training. destruct (_current_run s) as [c|] eqn:C.
    + intros [= <- <-]. exact Se.
    + intros [= <- <-]. unfold slot_inv in Inv. rewrite C in Inv.
      intros t. simpl. rewrite Inv. simpl. intros [<-|[]]. discriminate.
  - rewrite get_status_lookup. intros [= <- <-]. exact Se.
  - destruct (job_step i ev s) as [s1|] eqn:J; [|discriminate]. simpl.
    intros [= <- <-].
    apply job_step_cases in J as (t & Ht & J).
    destruct (slot_inv_thread _ _ _ Inv Ht) as (-> & Hts & Hc & Hsome & Htr).
    destruct J as [now P|now samples t0 P|now st lg t0 samples cb fs' P E
                  |t0 samples cb P|loss now t0 samples cb P|err P|P];
      intros t'; simpl; rewrite ?Hts; simpl;
      try (intros [<-|[]]; simpl; try discriminate; congruence).
    + intros [<-|[]] _. simpl. rewrite lookup_insert_eq. eexists. split; [reflexivity|].
      left. eauto.
    + intros [<-|[]] _. simpl. rewrite lookup_insert_eq. eexists. split; [reflexivity|].
      right. eauto.
    + intros [].
Qed.

Lemma reachable_invariants (acts : list action) (disk : files) (s : state)
    (outs : list output) :
  run acts (boot disk) = Some (s, outs) -> slot_inv s /\ files_inv s /\ settled_inv s.
Proof.
  apply (run_invariant (fun s => slot_inv s /\ files_inv s /\ settled_inv s)).
  - intros s0 a s1 o (Inv & Fi & Se) H. split; [|split].
    + exact (step_slot_inv _ _ _ _ Inv H).
    + exact (step_files_inv _ _ _ _ Inv Fi H).
    + exact (step_settled_inv _ _ _ _ Inv Se H).
  - split; [apply boot_slot_inv|]. split; intros t [].
Qed.

(** X3.  In every state the process can reach, the active slot is empty
    exactly when no background thread is left, there is never more than
    one thread, and a thread that is there is the thread of the active
    run, which has a record. *)
Theorem one_thread_per_active_run (acts : list action) (disk : files) (s : state)
    (outs : list output) :
  run acts (boot disk) = Some (s, outs) ->
  (_current_run s = None <-> threads s = []) /\
  (length (threads s) <= 1)%nat /\
  (forall t, In t (threads s) ->
             _current_run s = Some (t_run_id t) /\ is_Some (_runs s !! t_run_id t)).
Proof.
  intros H. destruct (reachable_invariants _ _ _ _ H) as (Inv & _ & _).
  unfold slot_inv in Inv. destruct (_current_run s) as [c|].
  - destruct Inv as (t & -> & <- & Hsome & _). split; [split; discriminate|].
    split; [simpl; lia|]. intros t' [<-|[]]. auto.
  - rewrite Inv. split; [split; reflexivity|]. split; [simpl; lia|]. intros t [].
Qed.

Lemma one_thread_per_active_run_witness :
  (_current_run (state_after first_report) = None <-> threads (state_after first_report) = []) /\
  (length (threads (state_after first_report)) <= 1)%nat /\
  (forall t, In t (threads (state_after first_report)) ->
             _current_run (state_after first_report) = Some (t_run_id t) /\
             is_Some (_runs (state_after first_report) !! t_run_id t)).
Proof.
  apply (one_thread_per_active_run first_report ∅ (state_after first_report)
           (answers first_report)).
  vm_compute. reflexivity.
Defined.

(** X4.  In every state the process can reach, the status of a record is
    ["training"], ["done"] or ["failed"]; the record has an error exactly
    when its status is ["failed"], and it has metrics exactly when its
    status is not. *)
Theorem record_shape (acts : list action) (disk : files) (s : state)
    (outs : list output) (k : string) (info : RunInfo.t) :
  run acts (boot disk) = Some (s, outs) ->
  _runs s !! k = Some info ->
  (RunInfo.status info = "training" \/ RunInfo.status info = "done" \/
   RunInfo.status info = "failed") /\
  (is_Some (RunInfo.error info) <-> RunInfo.status info = "failed") /\
  (is_Some (RunInfo.metrics info) <-> RunInfo.status info <> "failed").
Proof.
  intros H L.
  destruct (reachable_records _ _ _ _ _ _ H L)
    as [->|[(loss & el & n & ->)|(err & ->)]]; simpl.
  - split; [auto|]. split; split; try discriminate; eauto.
    intros [x Hx]. discriminate.
  - split; [auto|]. split; split; try discriminate; eauto.
    intros [x Hx]. discriminate.
  - split; [auto|]. split; split; eauto.
    + intros [x Hx]. discriminate.
    + intros Hn. contradiction Hn. reflexivity.
Qed.

Lemma record_shape_witness :
  (RunInfo.status (failed_info "CUDA out of memory") = "training" \/
   RunInfo.status (failed_info "CUDA out of memory") = "done" \/
   RunInfo.status (failed_info "CUDA out of memory") = "failed") /\
  (is_Some (RunInfo.error (failed_info "CUDA out of memory")) <->
   RunInfo.status (failed_info "CUDA out of memory") = "failed") /\
  (is_Some (RunInfo.metrics (failed_info "CUDA out of memory")) <->
   RunInfo.status (failed_info "CUDA out of memory") <> "failed").
Proof.
  apply (record_shape failed_run ∅ (state_after failed_run) (answers failed_run) "a").
  - vm_compute. reflexivity.
  - vm_compute. reflexivity.
Defined.

(** X5.  In every state the process can reach, once the thread of a run
    has recorded how the run ended and until it has released the slot, the
    record of the run already reads ["done"] or ["failed"], and every
    start-training request is still rejected with a 409 that names that
    run, the state staying as it was. *)
Theorem finished_run_still_blocks (acts : list action) (disk : files) (s : state)
    (outs : list output) (i : nat) (t : thread) :
  run acts (boot disk) = Some (s, outs) ->
  threads s !! i = Some t ->
  t_phase t = Recorded ->
  (exists info, _runs s !! t_run_id t = Some info /\ terminal info) /\
  (forall req uuid4,
      start_training req uuid4 s
      = (s, HTTPException 409 ("Training already in progress: " +:+ t_run_id t))).
Proof.
  intros H Ht P. destruct (reachable_invariants _ _ _ _ H) as (Inv & _ & Se).
  destruct (slot_inv_thread _ _ _ Inv Ht) as (-> & Hts & Hc & _ & _).
  split.
  - destruct (Se t) as (info & L & E); [rewrite Hts; left; reflexivity|exact P|].
    exists info. split; [exact L|].
    destruct E as [(loss & el & n & ->)|(err & ->)]; [left|right]; reflexivity.
  - intros req uuid4. unfold start_training. rewrite Hc. reflexivity.
Qed.

Lemma finished_run_still_blocks_witness :
  (exists info,
      _runs (state_after (firstn 2 failed_run)) !! "a" = Some info /\ terminal info) /\
  (forall req uuid4,
      start_training req uuid4 (state_after (firstn 2 failed_run))
      = (state_after (firstn 2 failed_run),
         HTTPException 409 ("Training already in progress: " +:+ "a"))).
Proof.
  apply (finished_run_still_blocks (firstn 2 failed_run) ∅
           (state_after (firstn 2 failed_run)) (answers (firstn 2 failed_run)) 0
           {| t_run_id := "a"; t_req := request (Some "a"); t_phase := Recorded |}).
  - vm_compute. reflexivity.
  - vm_compute. reflexivity.
  - reflexivity.
Defined.






(** X7.  In every state the process can reach: when [run_training] raises
    after its first lines, the registry turns to ["failed"] and no file is
    touched, so the status file of the run keeps reading ["training"], or
    ["done"] if the trainer had already signalled the end of training; and
    when the trainer signals the end of training, the status file turns to
    ["done"] while the registry still reads ["training"]. *)
Theorem status_file_lags_registry (acts : list action) (disk : files) (s : state)
    (outs : list output) (i : nat) (t : thread) :
  run acts (boot disk) = Some (s, outs) ->
  threads s !! i = Some t ->
  (forall err s',
      t_phase t <> Spawned -> job_step i (Fail err) s = Some s' ->
      _runs s' !! t_run_id t = Some (failed_info err) /\
      fs s' = fs s /\
      (fs s' !! status_file (out_dir t) = Some reads_training \/
       fs s' !! status_file (out_dir t) = Some reads_done)) /\
  (forall s',
      job_step i TrainEnd s = Some s' ->
      fs s' !! status_file (out_dir t) = Some reads_done /\
      _runs s' !! t_run_id t = Some training_info).
Proof.
  intros H Ht. destruct (reachable_invariants _ _ _ _ H) as (Inv & Fi & _).
  destruct (slot_inv_thread _ _ _ Inv Ht) as (-> & Hts & Hc & Hsome & Htr).
  pose proof (Fi t) as Ft. rewrite Hts in Ft. specialize (Ft (or_introl eq_refl)).
  split.
  - intros err s' Hsp J. apply job_step_cases in J as (t' & Ht' & J).
    rewrite Ht in Ht'. injection Ht' as <-.
    inversion J as [| | | | |err' P|]; subst. simpl.
    split; [apply lookup_insert_eq|]. split; [reflexivity|].
    destruct (t_phase t); try contradiction; tauto.
  - intros s' J. apply job_step_cases in J as (t' & Ht' & J).
    rewrite Ht in Ht'. injection Ht' as <-.
    inversion J as [| | |t0 samples cb P| | |]; subst. simpl.
    rewrite P in Ft. destruct Ft as (_ & Hs & _). split.
    + unfold on_train_end, _write_status. rewrite Hs. apply lookup_insert_eq.
    + apply Htr. rewrite P. discriminate.
Qed.

Lemma status_file_lags_registry_witness :
  _runs (state_after (failed_after_report ++ [Job 0 (Fail "CUDA out of memory")])) !! "a"
  = Some (failed_info "CUDA out of memory") /\
  fs (state_after (failed_after_report ++ [Job 0 (Fail "CUDA out of memory")]))
  = fs (state_after failed_after_report) /\
  (fs (state_after (failed_after_report ++ [Job 0 (Fail "CUDA out of memory")]))
     !! status_file "/out" = Some reads_training \/
   fs (state_after (failed_after_report ++ [Job 0 (Fail "CUDA out of memory")]))
     !! status_file "/out" = Some reads_done).
Proof.
  apply (proj1 (status_file_lags_registry failed_after_report ∅
                  (state_after failed_after_report) (answers failed_after_report) 0
                  {| t_run_id := "a"; t_req := request (Some "a");
                     t_phase := InTrainer 0 2
                                  (new_callback (metrics_file "/out") (status_file "/out") 1) |}
                  eq_refl eq_refl) "CUDA out of memory"
           (state_after (failed_after_report ++ [Job 0 (Fail "CUDA out of memory")]))).
  - discriminate.
  - vm_compute. reflexivity.
Defined.



(** ** Range and precision of the recorded progress *)

Lemma quotient_unit_interval (a b : Z) :
  0 <= a <= b -> 0 < b -> (0 <= inject_Z a / inject_Z b <= 1)%Q.
Proof.
  intros Ha Hb. split.
  - assert (inject_Z 0 / inject_Z b == 0)%Q as <- by (unfold Qdiv; apply Qmult_0_l).
    apply quotient_mono; lia.
  - assert (inject_Z b / inject_Z b == 1)%Q as <-.
    { apply Qmult_inv_r. intros E. unfold Qeq in E. simpl in E. lia. }
    apply quotient_mono; lia.
Qed.

Lemma quotient_above_one (a b : Z) :
  0 < b <= a -> (1 <= inject_Z a / inject_Z b)%Q.
Proof.
  intros H.
  assert (inject_Z b / inject_Z b == 1)%Q as <-.
  { apply Qmult_inv_r. intros E. unfold Qeq in E. simpl in E. lia. }
  apply quotient_mono; lia.
Qed.

Lemma round_float_0 : round_float 0 4 = 0%Q.
Proof. reflexivity. Qed.

Lemma round_float_1 : round_float 1 4 = 1%Q.
Proof. reflexivity. Qed.

(** X9.  The progress a reporter call leaves in the metrics file lies
    between 0 and 1 whenever the step lies between 0 and [max_steps]; it is
    not capped: it is at least 1 whenever the step has reached a positive
    [max_steps]. *)
Theorem recorded_progress_range (self : MetricsCallback) (now : Q) (st : TrainerState)
    (logs : gmap string pyval) (fs fs' : files) (p : Q) :
  on_log self now st (Some logs) fs = Some fs' ->
  read_progress self fs' = Some p ->
  (0 <= global_step st <= max_steps st -> (0 <= p <= 1)%Q) /\
  (0 < max_steps st <= global_step st -> (1 <= p)%Q).
Proof.
  intros E R. rewrite (read_after_on_log _ _ _ _ _ _ E) in R.
  unfold shown_progress in R. split.
  - intros Hs. destruct (Z_lt_le_dec 0 (max_steps st)) as [Hm|Hm].
    + rewrite log_progress_positive in R by assumption. simpl in R. injection R as <-.
      destruct (quotient_unit_interval (global_step st) (max_steps st)) as [H0 H1];
        [lia|lia|].
      split.
      * rewrite <- round_float_0. apply round_float_mono. rewrite Qred_correct. exact H0.
      * rewrite <- round_float_1. apply round_float_mono. rewrite Qred_correct. exact H1.
    + rewrite log_progress_nonpositive in R by assumption. simpl in R. injection R as <-.
      split; discriminate.
  - intros Hs. rewrite log_progress_positive in R by lia. simpl in R. injection R as <-.
    rewrite <- round_float_1. apply round_float_mono. rewrite Qred_correct.
    apply quotient_above_one. exact Hs.
Qed.

Lemma recorded_progress_range_witness :
  (0 <= 1 # 10 <= 1)%Q.
Proof.
  destruct (recorded_progress_range reporter 2 (at_step 1 10) {["loss" := PFloat (8 # 10)]}
              ∅ (<[metrics_path reporter :=
                    default ∅ (log_metrics reporter 2 (at_step 1 10)
                                 {["loss" := PFloat (8 # 10)]})]> ∅)
              (1 # 10)) as [Hin _].
  - vm_compute. reflexivity.
  - vm_compute. reflexivity.
  - apply Hin. simpl. lia.
Defined.






(** ** More on the dataset transform *)

Section DatasetErrors.

Variable json_loads : string -> option json.
Variable str_other : json -> string.

Lemma load_lines_acc (lines : list string) (acc : list sample) :
  load_lines json_loads str_other lines acc
  = match load_lines json_loads str_other lines [] with
    | inl e => inl e
    | inr samples => inr (acc ++ samples)
    end.
Proof.
  revert acc. induction lines as [|line rest IH]; intros acc.
  - simpl. rewrite app_nil_r. reflexivity.
  - cbn [load_lines].
    destruct (json_loads (strip line)) as [entry|]; [|reflexivity]. cbn [bind].
    destruct (getitem entry "messages") as [|messages]; [reflexivity|]. cbn [bind].
    destruct (iterate messages) as [|msgs]; [reflexivity|]. cbn [bind].
    destruct (format_messages str_other msgs "") as [|t]; [reflexivity|]. cbn [bind].
    rewrite (IH (acc ++ [{| text := t |}])), (IH ([] ++ [{| text := t |}])).
    destruct (load_lines json_loads str_other rest []) as [|samples]; [reflexivity|].
    rewrite <- app_assoc. reflexivity.
Qed.

Lemma load_lines_app (l1 l2 : list string) (acc : list sample) :
  load_lines json_loads str_other (l1 ++ l2) acc
  = match load_lines json_loads str_other l1 acc with
    | inl e => inl e
    | inr samples => load_lines json_loads str_other l2 samples
    end.
Proof.
  revert acc. induction l1 as [|line rest IH]; intros acc; [reflexivity|].
  cbn [app load_lines].
  destruct (json_loads (strip line)) as [entry|]; [|reflexivity]. cbn [bind].
  destruct (getitem entry "messages") as [|messages]; [reflexivity|]. cbn [bind].
  destruct (iterate messages) as [|msgs]; [reflexivity|]. cbn [bind].
  destruct (format_messages str_other msgs "") as [|t]; [reflexivity|]. cbn [bind].
  apply IH.
Qed.

Lemma format_messages_app (a b : list json) (acc : string) :
  format_messages str_other (a ++ b) acc
  = match format_messages str_other a acc with
    | inl e => inl e
    | inr t => format_messages str_other b t
    end.
Proof.
  revert acc. induction a as [|msg rest IH]; intros acc; [reflexivity|].
  cbn [app format_messages].
  destruct (getitem msg "role") as [|role]; [reflexivity|]. cbn [bind].
  destruct (getitem msg "content") as [|content]; [reflexivity|]. cbn [bind].
  apply IH.
Qed.

End DatasetErrors.

(** X11.  Loading the lines of one file followed by the lines of another
    gives the samples of the first followed by the samples of the second;
    it raises what the first raises, or else what the second raises. *)
Theorem load_dataset_app (json_loads : string -> option json) (str_other : json -> string)
    (l1 l2 : list string) :
  load_dataset_from_jsonl json_loads str_other (l1 ++ l2)
  = match load_dataset_from_jsonl json_loads str_other l1 with
    | inl e => inl e
    | inr s1 =>
        match load_dataset_from_jsonl json_loads str_other l2 with
        | inl e => inl e
        | inr s2 => inr (s1 ++ s2)
        end
    end.
Proof.
  unfold load_dataset_from_jsonl. rewrite load_lines_app.
  destruct (load_lines json_loads str_other l1 []) as [e|s1]; [reflexivity|].
  apply load_lines_acc.
Qed.

(** X12.  One bad line makes the whole load raise, whatever the lines
    after it hold, and the samples of the lines before it are lost: a line
    that does not parse raises JSONDecodeError; a line that parses to
    something else than an object raises TypeError; an object without
    ["messages"] raises KeyError on that key; and a message that has a role
    and no ["content"] raises KeyError on ["content"], whatever its role,
    recognized or not. *)
Theorem load_dataset_errors (json_loads : string -> option json) (str_other : json -> string)
    (good : list string) (line : string) (rest : list string) (samples : list sample) :
  load_dataset_from_jsonl json_loads str_other good = inr samples ->
  (json_loads (strip line) = None ->
   load_dataset_from_jsonl json_loads str_other (good ++ line :: rest)
   = inl JSONDecodeError) /\
  (forall entry,
      json_loads (strip line) = Some entry -> (forall fields, entry <> JObj fields) ->
      load_dataset_from_jsonl json_loads str_other (good ++ line :: rest) = inl TypeError) /\
  (forall fields,
      json_loads (strip line) = Some (JObj fields) ->
      obj_lookup fields "messages" = None ->
      load_dataset_from_jsonl json_loads str_other (good ++ line :: rest)
      = inl (KeyError "messages")) /\
  (forall fields before msg after role,
      json_loads (strip line) = Some (JObj fields) ->
      obj_lookup fields "messages" = Some (JArr (before ++ JObj msg :: after)) ->
      is_Some (all_fields before) ->
      obj_lookup msg "role" = Some role ->
      obj_lookup msg "content" = None ->
      load_dataset_from_jsonl json_loads str_other (good ++ line :: rest)
      = inl (KeyError "content")).
Proof.
  intros Hgood. unfold load_dataset_from_jsonl in *.
  rewrite load_lines_app, Hgood. cbn [load_lines].
  split; [|split; [|split]].
  - intros ->. reflexivity.
  - intros entry -> Hn. cbn [bind].
    destruct entry; try reflexivity. exfalso. eapply Hn. reflexivity.
  - intros fields -> L. cbn [bind getitem]. rewrite L. reflexivity.
  - intros fields before msg after role -> L [ms Hms] Lr Lc.
    cbn [bind getitem]. rewrite L. cbn [bind iterate].
    rewrite format_messages_app, (format_messages_fields str_other _ _ _ Hms).
    cbn [format_messages getitem bind]. rewrite Lr, Lc. reflexivity.
Qed.

Lemma load_dataset_errors_witness :
  load_dataset_from_jsonl loads_mixed plain_str ["first"; ""; "third"] = inl JSONDecodeError /\
  load_dataset_from_jsonl loads_mixed plain_str ["first"; "list"; "third"] = inl TypeError /\
  load_dataset_from_jsonl loads_mixed plain_str ["first"; "bare"; "third"]
  = inl (KeyError "messages") /\
  load_dataset_from_jsonl loads_mixed plain_str ["first"; "tool"; "third"]
  = inl (KeyError "content").
Proof.
  split; [|split; [|split]].
  - apply (proj1 (load_dataset_errors loads_mixed plain_str ["first"] "" ["third"] _ eq_refl)).
    reflexivity.
  - apply (proj1 (proj2 (load_dataset_errors loads_mixed plain_str ["first"] "list" ["third"]
                           _ eq_refl)) (JArr [])).
    + reflexivity.
    + discriminate.
  - apply (proj1 (proj2 (proj2 (load_dataset_errors loads_mixed plain_str ["first"] "bare"
                                  ["third"] _ eq_refl))) []); reflexivity.
  - apply (proj2 (proj2 (proj2 (load_dataset_errors loads_mixed plain_str ["first"] "tool"
                                  ["third"] _ eq_refl)))
             [("messages",
               JArr [ JObj [("role", JStr "user"); ("content", JStr "Hi")];
                      JObj [("role", JStr "tool"); ("name", JStr "search")] ])]
             [JObj [("role", JStr "user"); ("content", JStr "Hi")]]
             [("role", JStr "tool"); ("name", JStr "search")] [] (JStr "tool"));
      try reflexivity.
    simpl. eauto.
Defined.

(** ** More on the synchronous stages *)

Lemma drop_to_slash_none (cs : list ascii) :
  forallb (fun c => negb (is_slash c)) cs = true -> drop_to_slash cs = [].
Proof.
  induction cs as [|c cs IH]; simpl; [reflexivity|].
  destruct (is_slash c); simpl; [discriminate|exact IH].
Qed.

Lemma dirname_no_slash (p : string) : no_slash p -> dirname p = "".
Proof.
  unfold no_slash, dirname. intros H.
  rewrite drop_to_slash_none; [reflexivity|].
  apply forallb_forall. intros c Hc. apply List.in_rev in Hc.
  rewrite forallb_forall in H. apply H. exact Hc.
Qed.

(** X13.  With a script in place, the output directory is created before
    anything is run: if [os.makedirs] raises, the answer is a 500 with its
    message and no subprocess is run.  For an output path without any
    slash the directory asked for is the empty path.  If the subprocess
    cannot be launched, the answer is a 500 with the message of that
    error. *)
Theorem convert_environment_failures (h : host) (req : ConvertRequest) (p : string) :
  find_script h (search_paths h) = Some p ->
  (forall err,
      makedirs h (dirname (output_path req)) = Some err ->
      convert_to_gguf h req
      = ([Makedirs (dirname (output_path req))], HTTPException 500 err)) /\
  (forall err,
      no_slash (output_path req) -> makedirs h "" = Some err ->
      convert_to_gguf h req = ([Makedirs ""], HTTPException 500 err)) /\
  (forall msg,
      makedirs h (dirname (output_path req)) = None ->
      subprocess_run h (command p req) 600 = LaunchError msg ->
      convert_to_gguf h req
      = ([Makedirs (dirname (output_path req)); Spawn (command p req) 600],
         HTTPException 500 msg)).
Proof.
  intros F. unfold convert_to_gguf. rewrite F. split; [|split].
  - intros err ->. reflexivity.
  - intros err Hn. rewrite (dirname_no_slash _ Hn). intros ->. reflexivity.
  - intros msg -> ->. reflexivity.
Qed.

Lemma convert_environment_failures_witness :
  convert_to_gguf posix_host bare_request
  = ([Makedirs ""], HTTPException 500 "[Errno 2] No such file or directory").
Proof.
  apply (proj1 (proj2 (convert_environment_failures posix_host bare_request
                         "/usr/local/bin/convert_hf_to_gguf.py" eq_refl))).
  - reflexivity.
  - reflexivity.
Defined.

Lemma attempt_outcome (raises : Merge.call -> option string) (calls : list Merge.call) :
  match Merge.attempt raises calls with
  | (ran, None) => ran = calls /\ Forall (fun c => raises c = None) calls
  | (ran, Some err) =>
      exists before c after,
        calls = before ++ c :: after /\
        Forall (fun b => raises b = None) before /\
        raises c = Some err /\ ran = before ++ [c]
  end.
Proof.
  induction calls as [|c rest IH]; simpl; [split; [reflexivity|constructor]|].
  destruct (raises c) as [err|] eqn:R.
  - exists [], c, rest. repeat split; [constructor|exact R].
  - destruct (Merge.attempt raises rest) as [ran [err|]].
    + destruct IH as (before & c' & after & -> & Hb & Hc & ->).
      exists (c :: before), c', after. repeat split; [constructor; assumption|exact Hc].
    + destruct IH as [-> Hall]. split; [reflexivity|constructor; assumption].
Qed.

(** X14.  [merge_adapter] runs its statements in order and stops at the
    first that raises.  If none raises, all were run and the answer is
    [{status: ok, output_path}].  Otherwise the answer is a 500 with the
    message of the first exception and nothing after that statement was
    run.  In particular the merged model is only ever saved after the base
    model and the adapter were loaded, the merge was done and the output
    directory was created, and the tokenizer is only saved after the
    model. *)
Theorem merge_stops_at_first_failure (raises : Merge.call -> option string)
    (req : Merge.MergeRequest) :
  ((forall c, In c (Merge.script req) -> raises c = None) ->
   Merge.merge_adapter raises req
   = (Merge.script req,
      Return (<["status" := "ok"]> (<["output_path" := Merge.output_path req]> ∅)))) /\
  (forall code msg,
      snd (Merge.merge_adapter raises req) = HTTPException code msg ->
      code = 500 /\
      exists before c after,
        Merge.script req = before ++ c :: after /\
        Forall (fun b => raises b = None) before /\
        raises c = Some msg /\
        fst (Merge.merge_adapter raises req) = before ++ [c]) /\
  (forall path,
      In (Merge.SaveModel path) (fst (Merge.merge_adapter raises req)) ->
      raises (Merge.LoadBase (Merge.base_model_path req) 2048 true) = None /\
      raises (Merge.LoadAdapter (Merge.adapter_dir req)) = None /\
      raises Merge.MergeAndUnload = None /\
      raises (Merge.MakeOutputDir (Merge.output_path req)) = None) /\
  (forall path,
      In (Merge.SaveTokenizer path) (fst (Merge.merge_adapter raises req)) ->
      In (Merge.SaveModel path) (fst (Merge.merge_adapter raises req)) /\
      raises (Merge.SaveModel path) = None).
Proof.
  split; [|split; [|split]].
  - intros Hall. unfold Merge.merge_adapter.
    pose proof (attempt_outcome raises (Merge.script req)) as O.
    destruct (Merge.attempt raises (Merge.script req)) as [ran [err|]].
    + destruct O as (before & c & after & E & _ & Hc & _).
      rewrite Hall in Hc; [discriminate|]. rewrite E. apply List.in_or_app. right. left.
      reflexivity.
    + destruct O as [-> _]. reflexivity.
  - intros code msg. unfold Merge.merge_adapter.
    pose proof (attempt_outcome raises (Merge.script req)) as O.
    destruct (Merge.attempt raises (Merge.script req)) as [ran [err|]]; simpl;
      [|discriminate].
    intros [= <- <-]. split; [reflexivity|exact O].
  - intros path. unfold Merge.merge_adapter, Merge.script. simpl.
    destruct (raises Merge.ImportUnsloth); simpl; [intros [E|[]]; discriminate|].
    destruct (raises (Merge.LoadBase _ _ _)); simpl; [intros [E|[E|[]]]; discriminate|].
    destruct (raises Merge.ImportPeft); simpl; [intros [E|[E|[E|[]]]]; discriminate|].
    destruct (raises (Merge.LoadAdapter _)); simpl;
      [intros [E|[E|[E|[E|[]]]]]; discriminate|].
    destruct (raises Merge.MergeAndUnload); simpl;
      [intros [E|[E|[E|[E|[E|[]]]]]]; discriminate|].
    destruct (raises (Merge.MakeOutputDir _)); simpl;
      [intros [E|[E|[E|[E|[E|[E|[]]]]]]]; discriminate|].
    auto.
  - intros path. unfold Merge.merge_adapter, Merge.script. simpl.
    destruct (raises Merge.ImportUnsloth); simpl; [intros [E|[]]; discriminate|].
    destruct (raises (Merge.LoadBase _ _ _)); simpl; [intros [E|[E|[]]]; discriminate|].
    destruct (raises Merge.ImportPeft); simpl; [intros [E|[E|[E|[]]]]; discriminate|].
    destruct (raises (Merge.LoadAdapter _)); simpl;
      [intros [E|[E|[E|[E|[]]]]]; discriminate|].
    destruct (raises Merge.MergeAndUnload); simpl;
      [intros [E|[E|[E|[E|[E|[]]]]]]; discriminate|].
    destruct (raises (Merge.MakeOutputDir _)); simpl;
      [intros [E|[E|[E|[E|[E|[E|[]]]]]]]; discriminate|].
    destruct (raises (Merge.SaveModel _)) eqn:S; simpl;
      [intros [E|[E|[E|[E|[E|[E|[E|[]]]]]]]]; discriminate|].
    destruct (raises (Merge.SaveTokenizer _)); simpl;
      intros [E|[E|[E|[E|[E|[E|[E|[E|[]]]]]]]]]; try discriminate;
      injection E as <-; split; auto 10.
Qed.

Lemma merge_stops_at_first_failure_witness :
  exists before c after,
    Merge.script merge_request = before ++ c :: after /\
    Forall (fun b => missing_adapter b = None) before /\
    missing_adapter c = Some "adapter_config.json not found" /\
    fst (Merge.merge_adapter missing_adapter merge_request) = before ++ [c].
Proof.
  apply (proj1 (proj2 (merge_stops_at_first_failure missing_adapter merge_request)) 500).
  reflexivity.
Defined.

(** ** Holding the slot *)

(** X15.  No request cancels or replaces the active run: whatever step the
    process takes while a run is active, that run stays the active one,
    unless the step is the release by a background thread in its
    [finally] block, which empties the slot. *)
Theorem slot_held_until_release (s : state) (a : action) (s' : state) (o : output)
    (c : string) :
  step a s = Some (s', o) ->
  _current_run s = Some c ->
  _current_run s' = Some c \/
  (exists i, a = Job i Release /\ _current_run s' = None).
Proof.
  intros H C. destruct a as [|req uuid4|run_id|i ev]; simpl in H.
  - injection H as <- <-. left. exact C.
  - unfold start_training in H. rewrite C in H. injection H as <- <-. left. exact C.
  - rewrite get_status_lookup in H. injection H as <- <-. left. exact C.
  - destruct (job_step i ev s) as [s1|] eqn:J; [|discriminate]. simpl in H.
    injection H as <- <-.
    apply job_step_cases in J as (t & Ht & J).
    destruct J; simpl; try (left; exact C).
    right. exists i. split; reflexivity.
Qed.

Lemma slot_held_until_release_witness :
  _current_run (state_after (first_report ++ [StartTraining (request (Some "b")) uuid_text]))
  = Some "abc123" \/
  (exists i, StartTraining (request (Some "b")) uuid_text = Job i Release /\
             _current_run (state_after (first_report
                                          ++ [StartTraining (request (Some "b")) uuid_text]))
             = None).
Proof.
  apply (slot_held_until_release (state_after first_report)
           (StartTraining (request (Some "b")) uuid_text)
           (state_after (first_report ++ [StartTraining (request (Some "b")) uuid_text]))
           (StartOut (HTTPException 409 "Training already in progress: abc123")) "abc123").
  - vm_compute. reflexivity.
  - vm_compute. reflexivity.
Defined.
